(** * YC Radar: change detection and delivery reconciliation

    A shallow embedding of [yc_radar.py] and the properties of its
    reconciliation engine, state store and delivery queue.

    The program is a single-threaded script: every function reads and writes
    two JSON files, sends HTTP requests to the Algolia index and to a webhook,
    and reads the wall clock.  It is modelled in a state-and-exception monad
    over a [world] that holds the two files and the chronological trace of the
    external effects; the remote index, the webhook and the clock are oracles
    that answer from the trace so far, so that a theorem quantified over the
    environment covers every deterministic behaviour of these collaborators. *)

From stdpp Require Import base option list gmap sets strings sorting pretty.
From Stdlib Require Import ZArith Lia.

Open Scope Z_scope.

(** ** JSON values and Algolia hits *)

(** The JSON values a hit can carry at a key.  Floats, arrays and objects are
    kept as [JOther] with the only two things the program observes of them:
    their truth value and the text [str] renders. *)
Inductive json : Type :=
  | JNull
  | JBool (b : bool)
  | JInt (z : Z)
  | JStr (s : string)
  | JOther (truth : bool) (text : string).

(** Python truth value. *)
Definition truthy (v : json) : bool :=
  match v with
  | JNull => false
  | JBool b => b
  | JInt z => negb (z =? 0)
  | JStr s => negb (String.eqb s "")
  | JOther t _ => t
  end.

(** Python [str(v)]. *)
Definition py_str (v : json) : string :=
  match v with
  | JNull => "None"
  | JBool true => "True"
  | JBool false => "False"
  | JInt z => pretty z
  | JStr s => s
  | JOther _ s => s
  end.

(** Python [a or b]. *)
Definition py_or (a b : json) : json := if truthy a then a else b.

(** A hit is the dict parsed from one element of the response's [hits]. *)
Abbreviation hit := (gmap string json).

(** [hit.get(key)]: [None] when the key is absent. *)
Definition hit_get (h : hit) (key : string) : json := default JNull (h !! key).

(** [hit_id]: [str(hit.get("objectID") or hit.get("id") or "")]. *)
Definition hit_id (h : hit) : string :=
  py_str (py_or (py_or (hit_get h "objectID") (hit_get h "id")) (JStr "")).

(** The body of an Algolia answer, with the three keys the program reads. *)
Record response : Type := {
  nbHits : option Z;
  hits : option (list hit);
  facets : option (gmap string (gmap string Z));
}.

(** ** Persisted data *)

(** The record kept in [known_companies.json].  The three keys that
    [detect_new] reads with [state.get(key, default)] may be absent. *)
Record state : Type := {
  last_run_at : Z;                      (* the instant rendered by isoformat, in microseconds *)
  last_run_timestamp : option Z;
  total_count : option Z;
  known_ids : option (list string);
  version : Z;
}.

(** A JSON file on disk: absent, present with text that [json.load] rejects
    (an empty or partly written file), or present with a value. *)
Inductive file (A : Type) : Type :=
  | Missing
  | Unparsable
  | Holds (a : A).
Arguments Missing {A}.
Arguments Unparsable {A}.
Arguments Holds {A} a.

(** The webhook payload of [build_payload]: the fields [extract_company]
    copies out of the hit, the event tag and the detection instant. *)
Record payload : Type := {
  company : hit;
  event : string;
  detected_at : Z;
}.

(** ** External effects *)

Inductive effect : Type :=
  | EvAlgolia (url params : string)      (* one POST to the index *)
  | EvWebhook (url : string) (p : payload) (* one POST to the webhook *)
  | EvSleep (ms : Z)                     (* time.sleep, in milliseconds *)
  | EvOpenState                          (* open(state file, "w"): truncation *)
  | EvDumpState (s : state)              (* json.dump into the state file *)
  | EvOpenPending
  | EvDumpPending (l : list hit)
  | EvUnlinkPending.

Record world : Type := {
  state_file : file state;
  pending_file : file (list hit);
  trace : list effect;
}.

(** The collaborators.  Each answers from the trace of everything that has
    happened so far.  [env_algolia] is [None] when [requests.post] or
    [raise_for_status] raises; [env_webhook] is the same for the sink. *)
Record environment : Type := {
  env_algolia : list effect -> string -> string -> option response;
  env_webhook : list effect -> string -> payload -> bool;
  env_now : list effect -> Z;            (* datetime.now(utc), microseconds since the epoch *)
}.

(** ** The monad: state passing with exceptions *)

Inductive exn : Type :=
  | RequestException
  | JSONDecodeError
  | SystemExit (code : Z).

Inductive result (A : Type) : Type :=
  | Ok (a : A)
  | Raise (e : exn).
Arguments Ok {A} a.
Arguments Raise {A} e.

Definition M (A : Type) : Type := world -> result A * world.

Definition ret {A} (a : A) : M A := fun w => (Ok a, w).

Definition raise {A} (e : exn) : M A := fun w => (Raise e, w).

Definition bind {A B} (m : M A) (k : A -> M B) : M B := fun w =>
  match m w with
  | (Ok a, w') => k a w'
  | (Raise e, w') => (Raise e, w')
  end.

(** [try: m except requests.RequestException: handler]. *)
Definition try_except_request {A} (m : M A) (handler : M A) : M A := fun w =>
  match m w with
  | (Raise RequestException, w') => handler w'
  | r => r
  end.

Declare Scope radar_scope.
Delimit Scope radar_scope with radar.
Notation "x <- c1 ;; c2" := (bind c1 (fun x => c2))
  (at level 100, c1 at next level, right associativity) : radar_scope.
Notation "c1 ;; c2" := (bind c1 (fun _ => c2))
  (at level 100, right associativity) : radar_scope.
Open Scope radar_scope.

Definition log_event (e : effect) (w : world) : world :=
  {| state_file := state_file w; pending_file := pending_file w;
     trace := trace w ++ [e] |}.

Definition set_state_file (f : file state) (w : world) : world :=
  {| state_file := f; pending_file := pending_file w; trace := trace w |}.

Definition set_pending_file (f : file (list hit)) (w : world) : world :=
  {| state_file := state_file w; pending_file := f; trace := trace w |}.

(** A block of file-system steps run one after the other.  A process killed
    inside the block has run only the first [n] of them. *)
Definition run_steps (steps : list (world -> world)) (w : world) : world :=
  foldl (fun w step => step w) w steps.

Definition crash_after (n : nat) (steps : list (world -> world)) (w : world) : world :=
  run_steps (take n steps) w.

Definition emit (e : effect) : M unit := fun w => (Ok tt, log_event e w).

Definition sleep (ms : Z) : M unit := emit (EvSleep ms).

(** ** Constants *)

Definition ALGOLIA_APP_ID : string := "45BWZJ1SGC".
Definition INDEX_PRODUCTION : string := "YCCompany_production".
Definition INDEX_BY_LAUNCH : string := "YCCompany_By_Launch_Date_production".
Definition STATE_VERSION : Z := 1.

(** The default of the [max_retries] parameter of [algolia_query] and
    [send_webhook]; no caller passes another value. *)
Definition MAX_RETRIES : nat := 3.

(** The double quote character of the query strings. *)
Definition dquote : string := String (Ascii.ascii_of_nat 34) EmptyString.

Section Radar.

Variable env : environment.

(** ** Algolia helpers *)

Definition algolia_url (index : string) : string :=
  "https://" +:+ ALGOLIA_APP_ID +:+ "-dsn.algolia.net/1/indexes/" +:+ index +:+ "/query".

(** One [requests.post(...)], [raise_for_status()], [resp.json()]. *)
Definition algolia_post (url params : string) : M response := fun w =>
  let w' := log_event (EvAlgolia url params) w in
  match env_algolia env (trace w) url params with
  | Some r => (Ok r, w')
  | None => (Raise RequestException, w')
  end.

(** The retry loop of [algolia_query], from attempt number [attempt] with
    [more] further attempts allowed after it: the last attempt re-raises,
    the earlier ones sleep [2 ** attempt] seconds and go on. *)
Fixpoint algolia_attempts (url params : string) (attempt more : nat) : M response :=
  match more with
  | O => algolia_post url params
  | S more' =>
      try_except_request (algolia_post url params)
        (sleep (1000 * 2 ^ Z.of_nat attempt) ;;
         algolia_attempts url params (S attempt) more')
  end.

Definition algolia_query (index params : string) : M response :=
  algolia_attempts (algolia_url index) params 1 (MAX_RETRIES - 1).

Definition facets_params : string := "hitsPerPage=0&facets=batch".

Definition fetch_count : M Z :=
  result <- algolia_query INDEX_PRODUCTION facets_params ;;
  ret (default 0 (nbHits result)).

Definition since_params (timestamp : Z) : string :=
  "hitsPerPage=1000&numericFilters=[" +:+ dquote +:+ "launched_at>"
    +:+ pretty timestamp +:+ dquote +:+ "]".

Definition fetch_since (timestamp : Z) : M (list hit) :=
  result <- algolia_query INDEX_BY_LAUNCH (since_params timestamp) ;;
  ret (default [] (hits result)).

(** Python's order on strings, used by [sorted]. *)
Definition string_le (a b : string) : Prop := Is_true (String.leb a b).

#[global] Instance string_le_dec a b : Decision (string_le a b) := _.

Definition sorted (l : list string) : list string := merge_sort string_le l.

Definition fetch_batch_names : M (list string) :=
  result <- algolia_query INDEX_PRODUCTION facets_params ;;
  let batches : gmap string Z := default ∅ (default ∅ (facets result) !! "batch"%string) in
  ret (sorted (elements (dom batches))).

Definition batch_params (batch : string) : string :=
  "hitsPerPage=1000&facetFilters=[" +:+ dquote +:+ "batch:" +:+ batch +:+ dquote +:+ "]".

(** The loop of [fetch_all_companies] over the remaining batches. *)
Fixpoint fetch_batches (batches : list string) (all_hits : list hit) : M (list hit) :=
  match batches with
  | [] => ret all_hits
  | batch :: rest =>
      result <- algolia_query INDEX_PRODUCTION (batch_params batch) ;;
      let all_hits := all_hits ++ default [] (hits result) in
      sleep 100 ;;
      fetch_batches rest all_hits
  end.

Definition fetch_all_companies : M (list hit) :=
  batches <- fetch_batch_names ;;
  fetch_batches batches [].

(** ** State management *)

Definition load_state : M (option state) := fun w =>
  match state_file w with
  | Missing => (Ok None, w)
  | Unparsable => (Raise JSONDecodeError, w)
  | Holds s => (Ok (Some s), w)
  end.

(** [open(path, "w")] truncates the file; until [json.dump] has written the
    whole text the file holds nothing that [json.load] accepts. *)
Definition open_state_w (w : world) : world :=
  log_event EvOpenState (set_state_file Unparsable w).

Definition dump_state (s : state) (w : world) : world :=
  log_event (EvDumpState s) (set_state_file (Holds s) w).

(** The [with open(path, "w") as f: json.dump(state, f, indent=2)] block. *)
Definition write_state_steps (s : state) : list (world -> world) :=
  [open_state_w; dump_state s].

(** The record [save_state] builds at the instant [now]. *)
Definition new_state (now : Z) (known : list string) (total : Z) : state :=
  {| last_run_at := now;
     last_run_timestamp := Some (Z.quot now 1000000);
     total_count := Some total;
     known_ids := Some (sorted known);
     version := STATE_VERSION |}.

(** [save_state]: the clock is read once, the record is built and written
    in place.  ([mkdir] of the data directory touches neither file.) *)
Definition save_state (known : list string) (total : Z) : M unit := fun w =>
  let now := env_now env (trace w) in
  (Ok tt, run_steps (write_state_steps (new_state now known total)) w).

(** ** Pending webhook (retry queue) *)

Definition load_pending : M (option (list hit)) := fun w =>
  match pending_file w with
  | Missing => (Ok None, w)
  | Unparsable => (Raise JSONDecodeError, w)
  | Holds l => (Ok (Some l), w)
  end.

Definition open_pending_w (w : world) : world :=
  log_event EvOpenPending (set_pending_file Unparsable w).

Definition dump_pending (l : list hit) (w : world) : world :=
  log_event (EvDumpPending l) (set_pending_file (Holds l) w).

Definition write_pending_steps (l : list hit) : list (world -> world) :=
  [open_pending_w; dump_pending l].

Definition save_pending (l : list hit) : M unit := fun w =>
  (Ok tt, run_steps (write_pending_steps l) w).

Definition clear_pending : M unit := fun w =>
  match pending_file w with
  | Missing => (Ok tt, w)
  | _ => (Ok tt, log_event EvUnlinkPending (set_pending_file Missing w))
  end.

(** ** Webhook delivery *)

(** One [requests.post(url, json=payload)] with [raise_for_status]: [true]
    when neither raises. *)
Definition webhook_post (url : string) (p : payload) : M bool := fun w =>
  (Ok (env_webhook env (trace w) url p), log_event (EvWebhook url p) w).

(** The retry loop of [send_webhook]: returns [True] at the first success,
    [False] when the last attempt fails. *)
Fixpoint webhook_attempts (url : string) (p : payload) (attempt more : nat) : M bool :=
  match more with
  | O => webhook_post url p
  | S more' =>
      ok <- webhook_post url p ;;
      if ok then ret true
      else sleep (1000 * 2 ^ Z.of_nat attempt) ;;
           webhook_attempts url p (S attempt) more'
  end.

Definition send_webhook (url : string) (p : payload) : M bool :=
  webhook_attempts url p 1 (MAX_RETRIES - 1).

Definition build_payload (h : hit) : M payload := fun w =>
  (Ok {| company := h; event := "new_yc_company";
         detected_at := env_now env (trace w) |}, w).

(** The loop of [send_all_webhooks] with its two accumulators. *)
Fixpoint send_all_loop (url : string) (new_hits : list hit)
    (sent : nat) (failed : list hit) : M (nat * list hit) :=
  match new_hits with
  | [] => ret (sent, failed)
  | h :: rest =>
      p <- build_payload h ;;
      ok <- send_webhook url p ;;
      let sent := if ok : bool then S sent else sent in
      let failed := if ok : bool then failed else failed ++ [h] in
      sleep 200 ;;
      send_all_loop url rest sent failed
  end.

Definition send_all_webhooks (url : string) (new_hits : list hit) : M (nat * list hit) :=
  send_all_loop url new_hits 0%nat [].

(** ** Core detection logic *)

(** The ids of a list of hits as a Python set. *)
Definition id_set (l : list hit) : gset string := list_to_set (hit_id <$> l).

Definition seed : M (list string) :=
  all_hits <- fetch_all_companies ;;
  total <- fetch_count ;;
  let known := hit_id <$> all_hits in
  let known := elements (list_to_set (filter (λ kid, kid ≠ ""%string) known) : gset string) in
  save_state known total ;;
  ret known.

(** Lines 324-337 of [detect_new]: the full batch-partitioned fetch. *)
Definition full_fetch (known : gset string) (current_count : Z)
    : M (list hit * gset string * Z) :=
  all_hits <- fetch_all_companies ;;
  let all_ids := id_set all_hits in
  let new_ids := all_ids ∖ known in
  let new_hits := filter (λ h, hit_id h ∈ new_ids) all_hits in
  ret (new_hits, known ∪ all_ids, current_count).

Definition detect_new (force_full : bool) : M (list hit * gset string * Z) :=
  st <- load_state ;;
  match st with
  | None =>
      known <- seed ;;
      ret ([], list_to_set known, Z.of_nat (length known))
  | Some st =>
      let known : gset string := list_to_set (default [] (known_ids st)) in
      let stored_count := default 0 (total_count st) in
      let last_timestamp := default 0 (last_run_timestamp st) in
      current_count <- fetch_count ;;
      if (current_count =? stored_count) && negb force_full then
        ret ([], known, current_count)
      else if negb force_full && (0 <? last_timestamp) then
        recent_hits <- fetch_since last_timestamp ;;
        let new_hits := filter (λ h, hit_id h ∉ known) recent_hits in
        match new_hits with
        | _ :: _ => ret (new_hits, known ∪ id_set new_hits, current_count)
        | [] =>
            if stored_count <? current_count then full_fetch known current_count
            else ret ([], known, current_count)
        end
      else full_fetch known current_count
  end.

(** ** Command line *)

(** What [main] keeps of the arguments and the environment variables:
    [webhook_url] is [args.webhook_url or os.environ.get("WEBHOOK_URL", "")]. *)
Record config : Type := {
  webhook_url : string;
  dry_run : bool;
  seed_flag : bool;       (* --seed *)
  full_fetch_flag : bool; (* --full-fetch *)
}.

Definition nonempty (s : string) : bool := negb (String.eqb s "").

(** Lines 388-399: retry the pending webhooks of an earlier run. *)
Definition retry_pending (cfg : config) : M unit :=
  if nonempty (webhook_url cfg) && negb (dry_run cfg) then
    pending <- load_pending ;;
    match pending with
    | Some (h :: rest) =>
        r <- send_all_webhooks (webhook_url cfg) (h :: rest) ;;
        match snd r with
        | _ :: _ => save_pending (snd r)
        | [] => clear_pending
        end
    | _ => ret tt
    end
  else ret tt.

(** Lines 418-449: report and deliver the new hits. *)
Definition deliver_new (cfg : config) (new_hits : list hit) : M unit :=
  match new_hits with
  | [] => ret tt
  | _ :: _ =>
      if dry_run cfg then ret tt
      else if negb (nonempty (webhook_url cfg)) then ret tt
      else
        r <- send_all_webhooks (webhook_url cfg) new_hits ;;
        match snd r with
        | _ :: _ => save_pending (snd r) ;; raise (SystemExit 1)
        | [] => clear_pending
        end
  end.

(** Lines 401-449: everything after the retry of the pending webhooks. *)
Definition detect_and_deliver (cfg : config) : M unit :=
  if seed_flag cfg then
    seed ;; ret tt
  else
    r <- try_except_request (detect_new (full_fetch_flag cfg)) (raise (SystemExit 1)) ;;
    let '(new_hits, known, current_count) := r in
    save_state (elements known) current_count ;;
    deliver_new cfg new_hits.

Definition main (cfg : config) : M unit :=
  retry_pending cfg ;;
  detect_and_deliver cfg.

(** The status the interpreter exits with: [sys.exit(code)] gives [code],
    any other uncaught exception prints a traceback and gives 1. *)
Definition exit_code (r : result unit) : Z :=
  match r with
  | Ok _ => 0
  | Raise (SystemExit code) => code
  | Raise _ => 1
  end.

End Radar.

(** ** Company extraction *)

Definition YC_BASE_URL : string := "https://www.ycombinator.com/companies".

(** What [datetime.fromtimestamp(x, tz=utc).strftime("%Y-%m-%d")] does with
    a value: it gives a text, raises [OSError] or [ValueError], which
    [extract_company] catches, or raises something else ([TypeError] for a
    value that is not a number, [OverflowError] for one out of range), which
    it does not catch. *)
Inductive date_outcome : Type :=
  | DateText (s : string)
  | DateRejected
  | DateCrash.

(** The empty list used as a default. *)
Definition empty_list : json := JOther false "[]".

(** [hit.get(key, default)]. *)
Definition hit_get_default (h : hit) (key : string) (d : json) : json :=
  default d (h !! key).

Section Company.

(** The date conversion of the standard library. *)
Variable utc_date : json -> date_outcome.

(** Lines 113-118: [None] when the conversion raises an exception that is
    not caught. *)
Definition launched_human (launched_at : json) : option string :=
  if truthy launched_at then
    match utc_date launched_at with
    | DateText s => Some s
    | DateRejected => Some ""%string
    | DateCrash => None
    end
  else Some ""%string.

(** The dict literal that [extract_company] returns, for the date text
    [human]. *)
Definition company_dict (h : hit) (human : string) : gmap string json :=
  let slug := hit_get_default h "slug" (JStr "") in
  list_to_map [
    ("id", py_or (hit_get h "objectID") (hit_get h "id"));
    ("name", hit_get_default h "name" (JStr ""));
    ("slug", slug);
    ("url", JStr (if truthy slug then YC_BASE_URL +:+ "/" +:+ py_str slug else ""));
    ("website", hit_get_default h "website" (JStr ""));
    ("one_liner", hit_get_default h "one_liner" (JStr ""));
    ("long_description", hit_get_default h "long_description" (JStr ""));
    ("batch", hit_get_default h "batch" (JStr ""));
    ("status", hit_get_default h "status" (JStr ""));
    ("stage", hit_get_default h "stage" (JStr ""));
    ("industry", hit_get_default h "industry" (JStr ""));
    ("subindustry", hit_get_default h "subindustry" (JStr ""));
    ("industries", hit_get_default h "industries" empty_list);
    ("tags", hit_get_default h "tags" empty_list);
    ("team_size", hit_get_default h "team_size" (JInt 0));
    ("all_locations", hit_get_default h "all_locations" (JStr ""));
    ("regions", hit_get_default h "regions" empty_list);
    ("is_hiring", hit_get_default h "isHiring" (JBool false));
    ("nonprofit", hit_get_default h "nonprofit" (JBool false));
    ("top_company", hit_get_default h "top_company" (JBool false));
    ("small_logo_thumb_url", hit_get_default h "small_logo_thumb_url" (JStr ""));
    ("launched_at", hit_get h "launched_at");
    ("launched_at_human", JStr human)
  ]%string.

(** [extract_company]: the dict it returns, or [None] when it raises. *)
Definition extract_company (h : hit) : option (gmap string json) :=
  human ← launched_human (hit_get h "launched_at");
  Some (company_dict h human).

End Company.

(** The keys of the dict of [extract_company]. *)
Definition company_keys : list string :=
  ["id"; "name"; "slug"; "url"; "website"; "one_liner"; "long_description";
   "batch"; "status"; "stage"; "industry"; "subindustry"; "industries"; "tags";
   "team_size"; "all_locations"; "regions"; "is_hiring"; "nonprofit";
   "top_company"; "small_logo_thumb_url"; "launched_at"; "launched_at_human"]%string.

(** * Vocabulary of the properties *)

(** ** How a computation may change the world

    [evolves ks kp P w w'] says that [w'] is [w] after some more effects, all
    satisfying [P]; the state file is the same when [ks] is set and the
    pending file is the same when [kp] is set. *)
Definition evolves (ks kp : bool) (P : effect -> Prop) (w w' : world) : Prop :=
  (ks = true -> state_file w' = state_file w) /\
  (kp = true -> pending_file w' = pending_file w) /\
  exists tr, trace w' = trace w ++ tr /\ Forall P tr.

Definition preserves (ks kp : bool) (P : effect -> Prop) {A} (m : M A) : Prop :=
  forall w, evolves ks kp P w (m w).2.

(** [extend tr w] is [w] with the effects [tr] appended and the same files. *)
Definition extend (tr : list effect) (w : world) : world :=
  {| state_file := state_file w; pending_file := pending_file w;
     trace := trace w ++ tr |}.

(** ** Kinds of effects *)

Definition is_sleep (e : effect) : Prop := exists ms, e = EvSleep ms.

Definition is_algolia (e : effect) : Prop := exists url params, e = EvAlgolia url params.

Definition is_webhook (e : effect) : Prop := exists url p, e = EvWebhook url p.

(** The effects of one [algolia_query]. *)
Definition query_effect (url params : string) (e : effect) : Prop :=
  e = EvAlgolia url params \/ is_sleep e.

(** Traffic with the index: requests and the pauses between them. *)
Definition index_effect (e : effect) : Prop := is_algolia e \/ is_sleep e.

(** The effects of one [send_webhook]. *)
Definition post_effect (url : string) (p : payload) (e : effect) : Prop :=
  e = EvWebhook url p \/ is_sleep e.

(** Traffic with the sink. *)
Definition sink_effect (e : effect) : Prop := is_webhook e \/ is_sleep e.

(** The effects on the pending file. *)
Definition pending_effect (e : effect) : Prop :=
  e = EvOpenPending \/ (exists l, e = EvDumpPending l) \/ e = EvUnlinkPending.

(** ** Delivery *)

(** Some request for [h] was sent within [tr]. *)
Definition attempted_in (url : string) (h : hit) (tr : list effect) : Prop :=
  exists p, company p = h /\ EvWebhook url p ∈ tr.

(** Some request for [h] within [tr], the effects that follow [base], was
    answered with success ([ok] true), resp. with failure ([ok] false). *)
Definition answered_in (env : environment) (ok : bool) (url : string) (h : hit)
    (base tr : list effect) : Prop :=
  exists tr1 p tr2, tr = tr1 ++ EvWebhook url p :: tr2 /\ company p = h /\
    env_webhook env (base ++ tr1) url p = ok.

(** The run delivers: a webhook URL is configured and [--dry-run] is off. *)
Definition delivery_enabled (cfg : config) : bool :=
  nonempty (webhook_url cfg) && negb (dry_run cfg).

(** The pending file after the retry of a batch of which [failed] failed. *)
Definition pending_after (failed : list hit) : file (list hit) :=
  match failed with
  | [] => Missing
  | _ :: _ => Holds failed
  end.

(** ** Detection *)

(** The known ids [detect_new] builds from a persisted state. *)
Definition stored_known (st : state) : gset string :=
  list_to_set (default [] (known_ids st)).

(** The known ids [seed] builds from the hits of a full fetch. *)
Definition seeded_ids (all_hits : list hit) : gset string :=
  list_to_set (filter (fun kid => kid <> ""%string) (hit_id <$> all_hits)).

(** The conditions under which [detect_new], having read the count [c] in
    the world [w1], reaches the full fetch in the world [w2]: the count
    changed or the full fetch is forced, and either the window query is
    skipped (forced full fetch, or no usable watermark), or it was sent,
    returned no hit with an unknown id and the count has increased. *)
Definition reaches_full_fetch (env : environment) (force_full : bool)
    (st : state) (c : Z) (w1 w2 : world) : Prop :=
  let stored_count := default 0 (total_count st) in
  let last_timestamp := default 0 (last_run_timestamp st) in
  (c <> stored_count \/ force_full = true) /\
  (((force_full = true \/ last_timestamp <= 0) /\ w2 = w1) \/
   (force_full = false /\ 0 < last_timestamp /\ stored_count < c /\
    exists recent_hits,
      fetch_since env last_timestamp w1 = (Ok recent_hits, w2) /\
      filter (fun h => hit_id h ∉ stored_known st) recent_hits = [])).


(** Detection, run in the world [w1] reached after the retry of the pending
    batch, raises the transport error. *)
Definition detection_aborts (env : environment) (cfg : config) (w1 : world) : Prop :=
  exists w2, detect_new env (full_fetch_flag cfg) w1 = (Raise RequestException, w2).



(** ** The index *)

(** The batch facet of an answer, as [fetch_batch_names] reads it. *)
Definition facet_batches (r : response) : gmap string Z :=
  default ∅ (default ∅ (facets r) !! "batch"%string).

(** An index that never fails and whose answer depends only on the request. *)
Definition reliable_index (env : environment)
    (answer : string -> string -> response) : Prop :=
  forall tr url params, env_algolia env tr url params = Some (answer url params).

(** The hits an answer function gives for one batch, and the two effects of
    one round of the loop of [fetch_all_companies]. *)
Definition batch_hits_of (answer : string -> string -> response)
    (batch : string) : list hit :=
  default [] (hits (answer (algolia_url INDEX_PRODUCTION) (batch_params batch))).

Definition batch_round (batch : string) : list effect :=
  [EvAlgolia (algolia_url INDEX_PRODUCTION) (batch_params batch); EvSleep 100].

(** ** Statements that the program does not satisfy *)


(** The new hits hold at most one record per id. *)
Definition one_record_per_id (new : list hit) : Prop := NoDup (hit_id <$> new).



(** * Scenarios *)

(** A hit that carries only an [objectID]. *)
Definition hit_of (id : string) : hit := {[ "objectID"%string := JStr id ]}.

(** A hit with a name and no id at all. *)
Definition nameless_hit : hit := {[ "name"%string := JStr "Acme" ]}.

(** Two records with the same id. *)
Definition twin_first : hit :=
  {[ "objectID"%string := JStr "x"; "name"%string := JStr "first" ]}.

Definition twin_second : hit :=
  {[ "objectID"%string := JStr "x"; "name"%string := JStr "second" ]}.

(** A remote index that always answers: [count] companies, the batch facet
    [batches], [recent] for every window query and [batch_hits] for every
    batch; a sink that accepts a payload according to [sink]; a clock that
    advances one second per effect. *)
Definition static_env (count : Z) (batches : gmap string Z)
    (recent batch_hits : list hit) (sink : hit -> bool) : environment :=
  {| env_algolia := fun _ url params =>
       if decide (url = algolia_url INDEX_BY_LAUNCH) then
         Some {| nbHits := Some (Z.of_nat (length recent)); hits := Some recent;
                 facets := None |}
       else if decide (params = facets_params) then
         Some {| nbHits := Some count; hits := Some [];
                 facets := Some {[ "batch"%string := batches ]} |}
       else
         Some {| nbHits := Some (Z.of_nat (length batch_hits));
                 hits := Some batch_hits; facets := None |};
     env_webhook := fun _ _ p => sink (company p);
     env_now := fun tr => 1700000000000000 + 1000000 * Z.of_nat (length tr) |}.

Definition one_batch : gmap string Z := {[ "W24"%string := 4 ]}.

Definition state_of (known : list string) (total timestamp : Z) : state :=
  {| last_run_at := 1000000 * timestamp;
     last_run_timestamp := Some timestamp;
     total_count := Some total;
     known_ids := Some known;
     version := STATE_VERSION |}.

Definition world_of (st : file state) (pending : file (list hit)) : world :=
  {| state_file := st; pending_file := pending; trace := [] |}.

(** The answers of [static_env]. *)
Definition static_answer (count : Z) (batches : gmap string Z)
    (recent batch_hits : list hit) (url params : string) : response :=
  if decide (url = algolia_url INDEX_BY_LAUNCH) then
    {| nbHits := Some (Z.of_nat (length recent)); hits := Some recent;
       facets := None |}
  else if decide (params = facets_params) then
    {| nbHits := Some count; hits := Some [];
       facets := Some {[ "batch"%string := batches ]} |}
  else
    {| nbHits := Some (Z.of_nat (length batch_hits));
       hits := Some batch_hits; facets := None |}.

(** Sinks: one that accepts everything, one that refuses the company "p1",
    one that refuses everything. *)
Definition accept_all (h : hit) : bool := true.


Definition refuse_all (h : hit) : bool := false.

Definition delivering : config :=
  {| webhook_url := "https://sink.example"; dry_run := false;
     seed_flag := false; full_fetch_flag := false |}.


(** * Properties *)

(** ** The monad *)

Lemma bind_ok {A B} (m : M A) (k : A -> M B) w a w1 :
  m w = (Ok a, w1) -> bind m k w = k a w1.
Proof. intros H. unfold bind. by rewrite H. Qed.

Lemma bind_raise {A B} (m : M A) (k : A -> M B) w e w1 :
  m w = (Raise e, w1) -> bind m k w = (Raise e, w1).
Proof. intros H. unfold bind. by rewrite H. Qed.

Lemma bind_ok_inv {A B} (m : M A) (k : A -> M B) w b w' :
  bind m k w = (Ok b, w') ->
  exists a w1, m w = (Ok a, w1) /\ k a w1 = (Ok b, w').
Proof.
  unfold bind. destruct (m w) as [[a|e] w1]; intros H; [eauto | discriminate].
Qed.

(** ** How a computation may change the world *)

Lemma evolves_refl ks kp P w : evolves ks kp P w w.
Proof. repeat split; auto. exists []. by rewrite app_nil_r. Qed.

Lemma evolves_trans ks kp P w1 w2 w3 :
  evolves ks kp P w1 w2 -> evolves ks kp P w2 w3 -> evolves ks kp P w1 w3.
Proof.
  intros (Hs1 & Hp1 & tr1 & Ht1 & Hf1) (Hs2 & Hp2 & tr2 & Ht2 & Hf2).
  split; [|split].
  - intros H. rewrite Hs2, Hs1; auto.
  - intros H. rewrite Hp2, Hp1; auto.
  - exists (tr1 ++ tr2). split.
    + by rewrite Ht2, Ht1, app_assoc.
    + by apply Forall_app.
Qed.

Lemma evolves_weaken (ks kp ks' kp' : bool) (P Q : effect -> Prop) w w' :
  (ks' = true -> ks = true) -> (kp' = true -> kp = true) ->
  (forall e, P e -> Q e) ->
  evolves ks kp P w w' -> evolves ks' kp' Q w w'.
Proof.
  intros Hks Hkp HPQ (Hs & Hp & tr & Ht & Hf).
  split; [|split]; auto.
  exists tr. split; [done|]. eapply Forall_impl; eauto.
Qed.

Lemma evolves_log ks kp (P : effect -> Prop) e w :
  P e -> evolves ks kp P w (log_event e w).
Proof. intros He. repeat split; auto. exists [e]. split; [done|]. by constructor. Qed.

Lemma preserves_weaken (ks kp ks' kp' : bool) (P Q : effect -> Prop) {A} (m : M A) :
  (ks' = true -> ks = true) -> (kp' = true -> kp = true) ->
  (forall e, P e -> Q e) ->
  preserves ks kp P m -> preserves ks' kp' Q m.
Proof. intros ??? H w. eapply evolves_weaken; eauto. Qed.

Lemma preserves_ret ks kp P {A} (a : A) : preserves ks kp P (ret a).
Proof. intros w. apply evolves_refl. Qed.


Lemma preserves_bind ks kp P {A B} (m : M A) (k : A -> M B) :
  preserves ks kp P m -> (forall a, preserves ks kp P (k a)) ->
  preserves ks kp P (bind m k).
Proof.
  intros Hm Hk w. specialize (Hm w). unfold bind.
  destruct (m w) as [[a|e] w1]; simpl in *; [|done].
  eapply evolves_trans; [exact Hm | apply Hk].
Qed.

Lemma preserves_try ks kp P {A} (m handler : M A) :
  preserves ks kp P m -> preserves ks kp P handler ->
  preserves ks kp P (try_except_request m handler).
Proof.
  intros Hm Hh w. specialize (Hm w). unfold try_except_request.
  destruct (m w) as [[a|[| |c]] w1]; simpl in *; try done.
  eapply evolves_trans; [exact Hm | apply Hh].
Qed.

Lemma preserves_emit ks kp (P : effect -> Prop) e : P e -> preserves ks kp P (emit e).
Proof. intros He w. by apply evolves_log. Qed.

(** ** Kinds of effects *)

Lemma query_effect_index url params e : query_effect url params e -> index_effect e.
Proof. intros [->|H]; [left; by do 2 eexists | by right]. Qed.

Lemma index_effect_not_webhook e : index_effect e -> ~ is_webhook e.
Proof. intros [(?&?&->)|(?&->)] (?&?&?); discriminate. Qed.

Lemma sink_effect_not_algolia e : sink_effect e -> ~ is_algolia e.
Proof. intros [(?&?&->)|(?&->)] (?&?&?); discriminate. Qed.

Section RadarFacts.

Variable env : environment.

(** ** The index client *)

Lemma algolia_post_preserves url params :
  preserves true true (query_effect url params) (algolia_post env url params).
Proof.
  intros w. unfold algolia_post.
  destruct (env_algolia env (trace w) url params); simpl;
    apply evolves_log; by left.
Qed.

Lemma algolia_attempts_preserves url params attempt more :
  preserves true true (query_effect url params)
    (algolia_attempts env url params attempt more).
Proof.
  revert attempt. induction more as [|more IH]; intros attempt; simpl.
  - apply algolia_post_preserves.
  - apply preserves_try; [apply algolia_post_preserves|].
    apply preserves_bind; [|intros _; apply IH].
    apply preserves_emit. right. by eexists.
Qed.

(** The only exception of a query is the transport error. *)
Lemma algolia_attempts_raises url params attempt more w e w' :
  algolia_attempts env url params attempt more w = (Raise e, w') ->
  e = RequestException.
Proof.
  revert attempt w. induction more as [|more IH]; intros attempt w; simpl.
  - unfold algolia_post. destruct (env_algolia _ _ _ _); intros [= <- _]; done.
  - unfold try_except_request, algolia_post.
    destruct (env_algolia _ _ _ _); [discriminate|].
    unfold bind, sleep, emit. apply IH.
Qed.

(** Every query sends at least one request. *)
Lemma algolia_attempts_trace url params attempt more w :
  exists tr, trace (algolia_attempts env url params attempt more w).2
             = trace w ++ EvAlgolia url params :: tr.
Proof.
  destruct more as [|more]; simpl.
  - unfold algolia_post. exists [].
    by destruct (env_algolia _ _ _ _).
  - unfold try_except_request, algolia_post.
    destruct (env_algolia _ _ _ _); simpl; [by exists []|].
    unfold bind, sleep, emit.
    destruct (algolia_attempts_preserves url params (S attempt) more
                (log_event (EvSleep (1000 * 2 ^ Z.of_nat attempt))
                   (log_event (EvAlgolia url params) w)))
      as (_ & _ & tr & Ht & _).
    rewrite Ht. simpl. rewrite <- !app_assoc. simpl. by eexists.
Qed.

Lemma algolia_query_preserves index params :
  preserves true true (query_effect (algolia_url index) params)
    (algolia_query env index params).
Proof. apply algolia_attempts_preserves. Qed.

Lemma algolia_query_raises index params w e w' :
  algolia_query env index params w = (Raise e, w') -> e = RequestException.
Proof. apply algolia_attempts_raises. Qed.

Lemma fetch_count_preserves :
  preserves true true (query_effect (algolia_url INDEX_PRODUCTION) facets_params)
    (fetch_count env).
Proof.
  apply preserves_bind; [apply algolia_query_preserves|].
  intros r. apply preserves_ret.
Qed.

Lemma fetch_since_preserves timestamp :
  preserves true true index_effect (fetch_since env timestamp).
Proof.
  apply preserves_bind; [|intros r; apply preserves_ret].
  eapply preserves_weaken; [| |apply query_effect_index|apply algolia_query_preserves]; auto.
Qed.

Lemma fetch_batches_preserves batches all_hits :
  preserves true true index_effect (fetch_batches env batches all_hits).
Proof.
  revert all_hits. induction batches as [|b rest IH]; intros all_hits; simpl.
  - apply preserves_ret.
  - apply preserves_bind.
    + eapply preserves_weaken; [| |apply query_effect_index|apply algolia_query_preserves]; auto.
    + intros r. apply preserves_bind; [|intros _; apply IH].
      apply preserves_emit. right. by eexists.
Qed.

Lemma fetch_all_companies_preserves :
  preserves true true index_effect (fetch_all_companies env).
Proof.
  apply preserves_bind; [|intros b; apply fetch_batches_preserves].
  apply preserves_bind; [|intros r; apply preserves_ret].
  eapply preserves_weaken; [| |apply query_effect_index|apply algolia_query_preserves]; auto.
Qed.

(** ** What can be raised *)

Lemma fetch_count_raises w e w' :
  fetch_count env w = (Raise e, w') -> e = RequestException.
Proof.
  unfold fetch_count, bind.
  destruct (algolia_query env _ _ w) as [[r|e'] w1] eqn:Hq; [discriminate|].
  intros [= <- _]. eapply algolia_query_raises; eauto.
Qed.

Lemma fetch_since_raises timestamp w e w' :
  fetch_since env timestamp w = (Raise e, w') -> e = RequestException.
Proof.
  unfold fetch_since, bind.
  destruct (algolia_query env _ _ w) as [[r|e'] w1] eqn:Hq; [discriminate|].
  intros [= <- _]. eapply algolia_query_raises; eauto.
Qed.

Lemma fetch_batches_raises batches all_hits w e w' :
  fetch_batches env batches all_hits w = (Raise e, w') -> e = RequestException.
Proof.
  revert all_hits w. induction batches as [|b rest IH]; intros all_hits w; simpl.
  - discriminate.
  - unfold bind at 1.
    destruct (algolia_query env _ _ w) as [[r|e'] w1] eqn:Hq.
    + unfold bind, sleep, emit. apply IH.
    + intros [= <- _]. eapply algolia_query_raises; eauto.
Qed.

Lemma fetch_all_companies_raises w e w' :
  fetch_all_companies env w = (Raise e, w') -> e = RequestException.
Proof.
  unfold fetch_all_companies, bind at 1.
  destruct (fetch_batch_names env w) as [[b|e'] w1] eqn:Hb.
  - apply fetch_batches_raises.
  - intros [= <- _]. revert Hb. unfold fetch_batch_names, bind.
    destruct (algolia_query env _ _ w) as [[r|e''] w2] eqn:Hq; [discriminate|].
    intros [= <- _]. eapply algolia_query_raises; eauto.
Qed.

(** ** Delivery *)

Lemma extend_nil w : extend [] w = w.
Proof. destruct w. unfold extend. simpl. by rewrite app_nil_r. Qed.

Lemma extend_extend tr1 tr2 w : extend tr2 (extend tr1 w) = extend (tr1 ++ tr2) w.
Proof. unfold extend. simpl. by rewrite app_assoc. Qed.

Lemma log_event_extend e w : log_event e w = extend [e] w.
Proof. done. Qed.

Lemma extend_evolves ks kp (P : effect -> Prop) tr w :
  Forall P tr -> evolves ks kp P w (extend tr w).
Proof. intros H. repeat split; auto. by exists tr. Qed.

Lemma answered_in_shift ok url h base tr0 tr :
  answered_in env ok url h (base ++ tr0) tr -> answered_in env ok url h base (tr0 ++ tr).
Proof.
  intros (tr1 & p & tr2 & -> & Hc & Hok).
  exists (tr0 ++ tr1), p, tr2. rewrite <- app_assoc in Hok.
  by rewrite <- app_assoc.
Qed.

Lemma answered_in_app_l ok url h base tr tr' :
  answered_in env ok url h base tr -> answered_in env ok url h base (tr ++ tr').
Proof.
  intros (tr1 & p & tr2 & -> & Hc & Hok).
  exists tr1, p, (tr2 ++ tr'). by rewrite <- app_assoc.
Qed.

Lemma attempted_in_app_l url h tr tr' :
  attempted_in url h tr -> attempted_in url h (tr ++ tr').
Proof. intros (p & Hc & Hin). exists p. split; [done|]. apply elem_of_app. by left. Qed.

Lemma attempted_in_app_r url h tr tr' :
  attempted_in url h tr' -> attempted_in url h (tr ++ tr').
Proof. intros (p & Hc & Hin). exists p. split; [done|]. apply elem_of_app. by right. Qed.

Lemma post_effect_sink url p e : post_effect url p e -> sink_effect e.
Proof. intros [->|H]; [left; by do 2 eexists | by right]. Qed.

(** [send_webhook] always returns; it leaves the files alone, sends at
    least one request, returns [True] only when a request was accepted and
    [False] only when the last one was refused. *)
Lemma webhook_attempts_spec url p attempt more w :
  exists b tr,
    webhook_attempts env url p attempt more w = (Ok b, extend tr w) /\
    Forall (post_effect url p) tr /\
    EvWebhook url p ∈ tr /\
    exists tr1 tr2, tr = tr1 ++ EvWebhook url p :: tr2 /\
      env_webhook env (trace w ++ tr1) url p = b.
Proof.
  revert attempt w. induction more as [|more IH]; intros attempt w; simpl.
  - exists (env_webhook env (trace w) url p), [EvWebhook url p].
    split; [done|]. split; [constructor; [by left|constructor]|].
    split; [apply list_elem_of_here|].
    exists [], []. by rewrite app_nil_r.
  - unfold bind, webhook_post.
    destruct (env_webhook env (trace w) url p) eqn:Hok.
    + exists true, [EvWebhook url p].
      split; [done|]. split; [constructor; [by left|constructor]|].
      split; [apply list_elem_of_here|].
      exists [], []. by rewrite app_nil_r.
    + unfold sleep, emit. rewrite !log_event_extend, extend_extend.
      destruct (IH (S attempt)
                  (extend ([EvWebhook url p] ++ [EvSleep (1000 * 2 ^ Z.of_nat attempt)]) w))
        as (b & tr & Hrun & Hall & Hin & tr1 & tr2 & -> & Hb).
      rewrite Hrun, extend_extend.
      eexists b, _. split; [reflexivity|].
      split.
      { apply Forall_app. split; [|done].
        constructor; [by left|]. constructor; [right; by eexists|constructor]. }
      split; [apply elem_of_app; left; apply list_elem_of_here|].
      exists (([EvWebhook url p] ++ [EvSleep (1000 * 2 ^ Z.of_nat attempt)]) ++ tr1), tr2.
      split; [by rewrite <- app_assoc|].
      simpl in Hb. by rewrite app_assoc.
Qed.

Lemma send_webhook_spec url p w :
  exists b tr,
    send_webhook env url p w = (Ok b, extend tr w) /\
    Forall (post_effect url p) tr /\
    EvWebhook url p ∈ tr /\
    exists tr1 tr2, tr = tr1 ++ EvWebhook url p :: tr2 /\
      env_webhook env (trace w ++ tr1) url p = b.
Proof. apply webhook_attempts_spec. Qed.

(** [send_all_webhooks] always returns.  It leaves both files alone and
    only talks to the sink; every hit is attempted; the failed list is a
    sublist of the hits, in order; a hit that is not in it had a request
    accepted, and a hit in it had a request refused. *)
Lemma send_all_loop_spec url new_hits sent failed w :
  exists sent' fnew tr,
    send_all_loop env url new_hits sent failed w
      = (Ok (sent', failed ++ fnew), extend tr w) /\
    Forall sink_effect tr /\
    sublist fnew new_hits /\
    (sent' + length fnew = sent + length new_hits)%nat /\
    (forall h, h ∈ new_hits -> attempted_in url h tr) /\
    (forall h, h ∈ new_hits -> h ∈ fnew \/ answered_in env true url h (trace w) tr) /\
    (forall h, h ∈ fnew -> answered_in env false url h (trace w) tr).
Proof.
  revert sent failed w.
  induction new_hits as [|h rest IH]; intros sent failed w; simpl.
  - exists sent, [], []. rewrite app_nil_r, extend_nil.
    split; [done|]. split; [constructor|]. split; [constructor|].
    split; [simpl; lia|]. repeat split; intros h Hh; by apply elem_of_nil in Hh.
  - unfold bind at 1. unfold build_payload.
    set (p := {| company := h; event := "new_yc_company";
                 detected_at := env_now env (trace w) |}).
    destruct (send_webhook_spec url p w)
      as (b & tr0 & Hsend & Hall0 & Hin0 & tr1 & tr2 & Htr0 & Hb).
    unfold bind at 1. rewrite Hsend.
    unfold bind at 1, sleep, emit. rewrite log_event_extend, extend_extend.
    destruct (IH (if b then S sent else sent) (if b then failed else failed ++ [h])
                (extend (tr0 ++ [EvSleep 200]) w))
      as (sent' & fnew & tr & Hrun & Hall & Hsub & Hcount & Hatt & Hacc & Hrej).
    rewrite Hrun, extend_extend.
    assert (Hsink : Forall sink_effect ((tr0 ++ [EvSleep 200]) ++ tr)).
    { apply Forall_app. split; [|done]. apply Forall_app. split.
      - eapply Forall_impl; [exact Hall0|]. apply post_effect_sink.
      - constructor; [right; by eexists|constructor]. }
    assert (Hatt_h : attempted_in url h ((tr0 ++ [EvSleep 200]) ++ tr)).
    { do 2 apply attempted_in_app_l. by exists p. }
    assert (Hans_h : answered_in env b url h (trace w) ((tr0 ++ [EvSleep 200]) ++ tr)).
    { do 2 apply answered_in_app_l. by exists tr1, p, tr2. }
    assert (Hatt' : forall h', h' ∈ rest ->
              attempted_in url h' ((tr0 ++ [EvSleep 200]) ++ tr)).
    { intros h' Hh'. apply attempted_in_app_r. by apply Hatt. }
    destruct b.
    + exists sent', fnew, ((tr0 ++ [EvSleep 200]) ++ tr).
      split; [done|]. split; [done|].
      split; [by apply sublist_cons|]. split; [lia|].
      split; [|split].
      * intros h' [->|Hh']%elem_of_cons; auto.
      * intros h' [->|Hh']%elem_of_cons; [by right|].
        destruct (Hacc h' Hh') as [?|Hans]; [by left|right].
        by apply answered_in_shift.
      * intros h' Hh'. apply answered_in_shift. by apply Hrej.
    + exists sent', (h :: fnew), ((tr0 ++ [EvSleep 200]) ++ tr).
      split; [by rewrite <- app_assoc in Hrun |- *|]. split; [done|].
      split; [by apply sublist_skip|]. split; [simpl; lia|].
      split; [|split].
      * intros h' [->|Hh']%elem_of_cons; auto.
      * intros h' [->|Hh']%elem_of_cons; [left; apply list_elem_of_here|].
        destruct (Hacc h' Hh') as [?|Hans]; [left; by apply list_elem_of_further|right].
        by apply answered_in_shift.
      * intros h' [->|Hh']%elem_of_cons; [done|].
        apply answered_in_shift. by apply Hrej.
Qed.

Lemma send_all_webhooks_spec url new_hits w :
  exists sent failed tr,
    send_all_webhooks env url new_hits w = (Ok (sent, failed), extend tr w) /\
    Forall sink_effect tr /\
    sublist failed new_hits /\
    (sent + length failed = length new_hits)%nat /\
    (forall h, h ∈ new_hits -> attempted_in url h tr) /\
    (forall h, h ∈ new_hits -> h ∈ failed \/ answered_in env true url h (trace w) tr) /\
    (forall h, h ∈ failed -> answered_in env false url h (trace w) tr).
Proof.
  destruct (send_all_loop_spec url new_hits 0%nat [] w)
    as (sent & fnew & tr & Hrun & H).
  exists sent, fnew, tr. split; [exact Hrun|exact H].
Qed.

(** ** The state store *)

Lemma save_state_run known total w :
  let s := new_state (env_now env (trace w)) known total in
  save_state env known total w
  = (Ok tt, {| state_file := Holds s; pending_file := pending_file w;
               trace := trace w ++ [EvOpenState; EvDumpState s] |}).
Proof.
  unfold save_state, run_steps, write_state_steps, dump_state, open_state_w,
    log_event, set_state_file. simpl. by rewrite <- app_assoc.
Qed.

Lemma save_state_preserves known total :
  preserves false true (fun e => ~ is_webhook e) (save_state env known total).
Proof.
  intros w. rewrite save_state_run. simpl.
  split; [done|]. split; [done|]. eexists. split; [reflexivity|].
  repeat constructor; intros (?&?&?); discriminate.
Qed.

Lemma save_pending_run l w :
  save_pending l w
  = (Ok tt, {| state_file := state_file w; pending_file := Holds l;
               trace := trace w ++ [EvOpenPending; EvDumpPending l] |}).
Proof.
  unfold save_pending, run_steps, write_pending_steps, dump_pending,
    open_pending_w, log_event, set_pending_file. simpl. by rewrite <- app_assoc.
Qed.

Lemma clear_pending_spec w :
  exists tr, clear_pending w
    = (Ok tt, {| state_file := state_file w; pending_file := Missing;
                 trace := trace w ++ tr |}) /\ Forall pending_effect tr.
Proof.
  unfold clear_pending. destruct w as [sf pf tr0]. simpl.
  destruct pf; simpl.
  - exists []. by rewrite app_nil_r.
  - exists [EvUnlinkPending]. split; [done|]. constructor; [|constructor]. by right; right.
  - exists [EvUnlinkPending]. split; [done|]. constructor; [|constructor]. by right; right.
Qed.

(** ** Detection *)

Lemma index_preserves_detect {A} (m : M A) :
  preserves true true index_effect m ->
  preserves false true (fun e => ~ is_webhook e) m.
Proof.
  apply preserves_weaken; auto. apply index_effect_not_webhook.
Qed.

Lemma fetch_count_index : preserves true true index_effect (fetch_count env).
Proof.
  eapply preserves_weaken; [| |apply query_effect_index|apply fetch_count_preserves]; auto.
Qed.

Lemma seed_preserves :
  preserves false true (fun e => ~ is_webhook e) (seed env).
Proof.
  apply preserves_bind.
  { apply index_preserves_detect, fetch_all_companies_preserves. }
  intros all_hits. apply preserves_bind.
  { apply index_preserves_detect, fetch_count_index. }
  intros total. apply preserves_bind; [apply save_state_preserves|].
  intros _. apply preserves_ret.
Qed.


Lemma full_fetch_preserves known c :
  preserves true true index_effect (full_fetch env known c).
Proof.
  apply preserves_bind; [apply fetch_all_companies_preserves|].
  intros all_hits. apply preserves_ret.
Qed.


(** Detection never talks to the sink and never touches the pending file. *)
Lemma detect_new_preserves force_full :
  preserves false true (fun e => ~ is_webhook e) (detect_new env force_full).
Proof.
  unfold detect_new. intros w. unfold bind at 1, load_state.
  destruct (state_file w) as [| |st] eqn:Hst; simpl; try apply evolves_refl.
  - apply (preserves_bind false true (fun e => ~ is_webhook e));
      [apply seed_preserves|]. intros known. apply preserves_ret.
  - apply (preserves_bind false true (fun e => ~ is_webhook e)).
    { apply index_preserves_detect, fetch_count_index. }
    intros c.
    destruct ((c =? default 0 (total_count st)) && negb force_full);
      [apply preserves_ret|].
    destruct (negb force_full && (0 <? default 0 (last_run_timestamp st))).
    + apply preserves_bind.
      { apply index_preserves_detect, fetch_since_preserves. }
      intros recent.
      destruct (filter _ recent); [|apply preserves_ret].
      destruct (_ <? _); [|apply preserves_ret].
      apply index_preserves_detect, full_fetch_preserves.
    + apply index_preserves_detect, full_fetch_preserves.
Qed.


(** The three ways [detect_new] returns when a state was persisted. *)
Lemma detect_new_inv force_full st w new known' c w' :
  state_file w = Holds st ->
  detect_new env force_full w = (Ok (new, known', c), w') ->
  let known := stored_known st in
  (new = [] /\ known' = known) \/
  (exists recent, new = filter (fun h => hit_id h ∉ known) recent /\
     new <> [] /\ known' = known ∪ id_set new) \/
  (exists all_hits,
     new = filter (fun h => hit_id h ∈ id_set all_hits ∖ known) all_hits /\
     known' = known ∪ id_set all_hits).
Proof.
  intros Hst. unfold detect_new, bind at 1, load_state. rewrite Hst.
  intros (c0 & w1 & Hc & Hrest)%bind_ok_inv. simpl. revert Hrest.
  fold (stored_known st).
  assert (Hfull : forall w2, full_fetch env (stored_known st) c0 w2
                             = (Ok (new, known', c), w') ->
    exists all_hits,
      new = filter (fun h => hit_id h ∈ id_set all_hits ∖ stored_known st) all_hits /\
      known' = stored_known st ∪ id_set all_hits).
  { intros w2 (all_hits & w3 & Hall & Hret)%bind_ok_inv.
    injection Hret as <- <- <- <-. by exists all_hits. }
  destruct ((c0 =? default 0 (total_count st)) && negb force_full).
  { intros [= <- <- <- <-]. by left. }
  destruct (negb force_full && (0 <? default 0 (last_run_timestamp st))).
  - intros (recent & w2 & Hs & Hrest)%bind_ok_inv. revert Hrest.
    destruct (filter _ recent) as [|h new'] eqn:Hf.
    + destruct (_ <? _).
      * intros H. right; right. eapply Hfull; eauto.
      * intros [= <- <- <- <-]. by left.
    + intros [= <- <- <- <-]. right; left. exists recent. by rewrite Hf.
  - intros H. right; right. eapply Hfull; eauto.
Qed.

End RadarFacts.

(** * The reconciliation engine *)

(** The count query differs from the window query and from every batch
    query. *)
Lemma since_params_not_facets timestamp : since_params timestamp <> facets_params.
Proof. unfold since_params, facets_params. simpl. discriminate. Qed.

Lemma batch_params_not_facets batch : batch_params batch <> facets_params.
Proof. unfold batch_params, facets_params. simpl. discriminate. Qed.

(** C3. With a persisted state, when [fetch_count] returns the stored
    [total_count] and [force_full] is false, [detect_new] returns no new hit,
    the stored set of known ids and that count; the world it leaves is the
    one [fetch_count] left: the only requests sent are those of the count
    query, no window query and no batch query among them, whatever the index
    would have answered to them. *)
Theorem C3_unchanged_count_returns_stored env st w c w1 :
  state_file w = Holds st ->
  fetch_count env w = (Ok c, w1) ->
  c = default 0 (total_count st) ->
  detect_new env false w = (Ok ([], stored_known st, c), w1) /\
  state_file w1 = state_file w /\
  pending_file w1 = pending_file w /\
  exists tr, trace w1 = trace w ++ tr /\
    Forall (query_effect (algolia_url INDEX_PRODUCTION) facets_params) tr /\
    (forall timestamp,
       EvAlgolia (algolia_url INDEX_BY_LAUNCH) (since_params timestamp) ∉ tr) /\
    (forall batch,
       EvAlgolia (algolia_url INDEX_PRODUCTION) (batch_params batch) ∉ tr).
Proof.
  intros Hst Hc ->. split.
  - unfold detect_new, bind at 1, load_state. rewrite Hst.
    erewrite bind_ok by exact Hc. simpl.
    by rewrite Z.eqb_refl.
  - pose proof (fetch_count_preserves env w) as (Hs & Hp & tr & Htr & Hall).
    rewrite Hc in Hs, Hp, Htr. simpl in *.
    split; [auto|]. split; [auto|]. exists tr. split; [done|]. split; [done|].
    rewrite Forall_forall in Hall. split.
    + intros timestamp Hin. destruct (Hall _ Hin) as [Heq|[ms Heq]]; [|discriminate].
      apply (since_params_not_facets timestamp). congruence.
    + intros batch Hin. destruct (Hall _ Hin) as [Heq|[ms Heq]]; [|discriminate].
      apply (batch_params_not_facets batch). congruence.
Qed.

Lemma C3_witness :
  let env := static_env 1 one_batch [hit_of "x"] [hit_of "y"] accept_all in
  let st := state_of ["a"%string] 1 100 in
  let w := world_of (Holds st) Missing in
  detect_new env false w = (Ok ([], stored_known st, 1), (fetch_count env w).2) /\
  stored_known st = ({[ "a" ]} : gset string).
Proof.
  intros env st w. split; [|vm_compute; reflexivity].
  apply (C3_unchanged_count_returns_stored env st w 1 (fetch_count env w).2);
    vm_compute; reflexivity.
Defined.

(** C4. With a persisted state, no id of the stored [known_ids] is the id of
    a hit that [detect_new] returns as new, whichever path produced the
    hits. *)
Theorem C4_known_id_is_never_new env force_full st w new known' c w' :
  state_file w = Holds st ->
  detect_new env force_full w = (Ok (new, known', c), w') ->
  forall id, id ∈ default [] (known_ids st) -> id ∉ hit_id <$> new.
Proof.
  intros Hst Hrun id Hid Hin.
  assert (Hk : id ∈ stored_known st) by (by apply elem_of_list_to_set).
  apply list_elem_of_fmap in Hin as (h & -> & Hh).
  destruct (detect_new_inv env _ _ _ _ _ _ _ Hst Hrun)
    as [[-> _]|[(recent & Hnew & _ & _)|(all_hits & Hnew & _)]].
  - by apply elem_of_nil in Hh.
  - rewrite Hnew in Hh. apply list_elem_of_filter in Hh as [Hn _]. done.
  - rewrite Hnew in Hh. apply list_elem_of_filter in Hh as [Hn _].
    apply elem_of_difference in Hn as [_ Hn]. done.
Qed.

Lemma C4_witness :
  let env := static_env 3 one_batch [hit_of "a"; hit_of "x"] [hit_of "y"] accept_all in
  let st := state_of ["a"%string] 1 100 in
  let w := world_of (Holds st) Missing in
  (detect_new env false w).1 = Ok ([hit_of "x"], {[ "a"; "x" ]} : gset string, 3) /\
  "a"%string ∉ hit_id <$> [hit_of "x"].
Proof.
  intros env st w. split; [vm_compute; reflexivity|].
  apply (C4_known_id_is_never_new env false st w [hit_of "x"]
           ({[ "a"; "x" ]} : gset string) 3 (detect_new env false w).2).
  - reflexivity.
  - vm_compute; reflexivity.
  - vm_compute. apply list_elem_of_here.
Defined.

Lemma id_set_elem (l : list hit) (h : hit) : h ∈ l -> hit_id h ∈ id_set l.
Proof. intros Hh. apply elem_of_list_to_set, list_elem_of_fmap. eauto. Qed.

Lemma id_set_filter_difference (known : gset string) (l : list hit) :
  id_set (filter (fun h => hit_id h ∈ id_set l ∖ known) l) = id_set l ∖ known.
Proof.
  apply set_eq. intros id. unfold id_set.
  rewrite elem_of_difference, !elem_of_list_to_set, !list_elem_of_fmap.
  split.
  - intros (h & -> & Hh). apply list_elem_of_filter in Hh as [Hd Hh].
    apply elem_of_difference in Hd as [_ Hn]. eauto.
  - intros [(h & -> & Hh) Hn]. exists h. split; [done|].
    apply list_elem_of_filter. split; [|done].
    apply elem_of_difference. split; [by apply id_set_elem|done].
Qed.

Lemma detect_new_full_fetch env force_full st w c w1 w2 all_hits w3 :
  state_file w = Holds st ->
  fetch_count env w = (Ok c, w1) ->
  reaches_full_fetch env force_full st c w1 w2 ->
  fetch_all_companies env w2 = (Ok all_hits, w3) ->
  let known := stored_known st in
  let all_ids := id_set all_hits in
  let new := filter (fun h => hit_id h ∈ all_ids ∖ known) all_hits in
  detect_new env force_full w = (Ok (new, known ∪ all_ids, c), w3).
Proof.
  intros Hst Hc [Hchg Hpath] Hall known all_ids new.
  unfold detect_new, bind at 1, load_state. rewrite Hst.
  erewrite bind_ok by exact Hc. simpl. fold (stored_known st). fold known.
  assert (Hfull : full_fetch env known c w2 = (Ok (new, known ∪ all_ids, c), w3)).
  { unfold full_fetch. by erewrite bind_ok by exact Hall. }
  destruct Hpath as [[Hskip ->]|(-> & Hts & Hinc & recent & Hs & Hnone)].
  - assert (Hgate : (c =? default 0 (total_count st)) && negb force_full = false).
    { destruct Hchg as [Hne| ->]; [|by rewrite andb_false_r].
      apply Z.eqb_neq in Hne. by rewrite Hne. }
    rewrite Hgate.
    assert (Hwin : negb force_full && (0 <? default 0 (last_run_timestamp st)) = false).
    { destruct Hskip as [-> | Hle]; [done|].
      apply Z.ltb_ge in Hle. rewrite Hle. by rewrite andb_false_r. }
    by rewrite Hwin.
  - assert (Hne : (c =? default 0 (total_count st)) = false) by (apply Z.eqb_neq; lia).
    rewrite Hne. simpl.
    apply Z.ltb_lt in Hts. rewrite Hts.
    erewrite bind_ok by exact Hs. fold known in Hnone. rewrite Hnone.
    apply Z.ltb_lt in Hinc. by rewrite Hinc.
Qed.

(** C5. On the full-fetch path [detect_new] returns the fetched hits whose
    id is in [all_ids - known_ids], in fetch order; their ids are exactly
    that difference; and the updated known ids are [known_ids | all_ids]. *)
Theorem C5_full_fetch_returns_difference env force_full st w c w1 w2 all_hits w3 :
  state_file w = Holds st ->
  fetch_count env w = (Ok c, w1) ->
  reaches_full_fetch env force_full st c w1 w2 ->
  fetch_all_companies env w2 = (Ok all_hits, w3) ->
  let known := stored_known st in
  let all_ids := id_set all_hits in
  let new := filter (fun h => hit_id h ∈ all_ids ∖ known) all_hits in
  detect_new env force_full w = (Ok (new, known ∪ all_ids, c), w3) /\
  (forall h, h ∈ new <-> h ∈ all_hits /\ hit_id h ∈ all_ids ∖ known) /\
  id_set new = all_ids ∖ known.
Proof.
  intros Hst Hc Hreach Hall known all_ids new.
  split; [by eapply detect_new_full_fetch|].
  split; [|apply id_set_filter_difference].
  intros h. unfold new. rewrite list_elem_of_filter. tauto.
Qed.

(** The scenario of the specification: known ids A and B, a full fetch that
    returns A, B, C and D. *)
Lemma C5_witness :
  let env := static_env 4 one_batch []
               [hit_of "A"; hit_of "B"; hit_of "C"; hit_of "D"] accept_all in
  let st := state_of ["A"; "B"]%string 2 0 in
  let w := world_of (Holds st) Missing in
  (detect_new env false w).1
    = Ok ([hit_of "C"; hit_of "D"], {[ "A"; "B"; "C"; "D" ]} : gset string, 4) /\
  id_set [hit_of "C"; hit_of "D"] = ({[ "C"; "D" ]} : gset string) /\
  (known_ids <$> match state_file (main env delivering w).2 with
                 | Holds s => Some s | _ => None end)
    = Some (Some ["A"; "B"; "C"; "D"]%string).
Proof.
  intros env st w.
  pose (w1 := (fetch_count env w).2).
  pose proof (C5_full_fetch_returns_difference env false st w 4 w1 w1
                [hit_of "A"; hit_of "B"; hit_of "C"; hit_of "D"]
                (fetch_all_companies env w1).2) as H.
  assert (Hdet : detect_new env false w
                 = (Ok ([hit_of "C"; hit_of "D"],
                        {[ "A"; "B"; "C"; "D" ]} : gset string, 4),
                    (fetch_all_companies env w1).2) /\
                 (forall h, h ∈ [hit_of "C"; hit_of "D"] <->
                    h ∈ [hit_of "A"; hit_of "B"; hit_of "C"; hit_of "D"] /\
                    hit_id h ∈ ({[ "C"; "D" ]} : gset string)) /\
                 id_set [hit_of "C"; hit_of "D"] = ({[ "C"; "D" ]} : gset string)).
  { replace [hit_of "C"; hit_of "D"] with
      (filter (fun h => hit_id h ∈ id_set [hit_of "A"; hit_of "B"; hit_of "C"; hit_of "D"]
                                   ∖ stored_known st)
              [hit_of "A"; hit_of "B"; hit_of "C"; hit_of "D"])
      by (vm_compute; reflexivity).
    replace ({[ "A"; "B"; "C"; "D" ]} : gset string) with
      (stored_known st ∪ id_set [hit_of "A"; hit_of "B"; hit_of "C"; hit_of "D"])
      by (vm_compute; reflexivity).
    replace ({[ "C"; "D" ]} : gset string) with
      (id_set [hit_of "A"; hit_of "B"; hit_of "C"; hit_of "D"] ∖ stored_known st)
      by (vm_compute; reflexivity).
    apply H.
    - reflexivity.
    - vm_compute; reflexivity.
    - split; [left; vm_compute; discriminate|].
      left. split; [right; vm_compute; discriminate|reflexivity].
    - vm_compute; reflexivity. }
  destruct Hdet as (Hdet & _ & Hids). split; [by rewrite Hdet|].
  split; [exact Hids|vm_compute; reflexivity].
Defined.

(** ** The first run *)

(** What the first run does: the full fetch, then the count query, then the
    state is saved with the non-empty ids and the count that was read; no
    hit is returned as new; the count that is returned is the number of
    distinct non-empty ids. *)
Lemma detect_new_first_run env force_full w all_hits w1 total w2 :
  state_file w = Missing ->
  fetch_all_companies env w = (Ok all_hits, w1) ->
  fetch_count env w1 = (Ok total, w2) ->
  let known := seeded_ids all_hits in
  let s := new_state (env_now env (trace w2)) (elements known) total in
  detect_new env force_full w
  = (Ok ([], known, Z.of_nat (size known)),
     {| state_file := Holds s; pending_file := pending_file w2;
        trace := trace w2 ++ [EvOpenState; EvDumpState s] |}).
Proof.
  intros Hst Hall Hc known s.
  unfold detect_new, bind at 1, load_state. rewrite Hst.
  unfold seed. unfold bind at 1. unfold bind at 1. rewrite Hall.
  unfold bind at 1. rewrite Hc.
  fold (seeded_ids all_hits). fold known.
  unfold bind. rewrite save_state_run. unfold ret.
  by rewrite list_to_set_elements_L.
Qed.

(** C2. A first run on a catalog whose count query reports two companies
    while the partitioned fetch returns one (the other carries no batch
    label): [detect_new] returns no new hit and the fetched id, but its count
    is 1, the number of ids, although [fetch_count] returned 2; [seed] saved
    the count 2 and [main] then overwrites it with 1. *)
Theorem C2_first_run_count_is_number_of_ids :
  let env := static_env 2 {[ "W24"%string := 1 ]} [] [hit_of "a"] accept_all in
  let w := world_of Missing Missing in
  let cfg := {| webhook_url := "https://sink.example"; dry_run := false;
                seed_flag := false; full_fetch_flag := false |} in
  (fetch_all_companies env w).1 = Ok [hit_of "a"] /\
  (fetch_count env (fetch_all_companies env w).2).1 = Ok 2 /\
  (detect_new env false w).1 = Ok ([], {[ "a" ]} : gset string, 1) /\
  (total_count <$> match state_file (seed env w).2 with
                   | Holds s => Some s | _ => None end) = Some (Some 2) /\
  (total_count <$> match state_file (main env cfg w).2 with
                   | Holds s => Some s | _ => None end) = Some (Some 1).
Proof. vm_compute. repeat split; reflexivity. Qed.

(** ** Records without an id *)

(** C6. A record with neither [objectID] nor [id] has the empty id.  The
    seeding path leaves it out of the known ids, but on the window path and
    on the full-fetch path it is returned among the new hits and the empty
    id is added to the known ids. *)
Theorem C6_record_without_id_is_surfaced :
  let st := state_of ["a"%string] 1 100 in
  let st0 := state_of ["a"%string] 1 0 in
  let env_window := static_env 2 one_batch [nameless_hit] [] accept_all in
  let env_full := static_env 2 one_batch [] [hit_of "a"; nameless_hit] accept_all in
  hit_id nameless_hit = ""%string /\
  (detect_new env_full false (world_of Missing Missing)).1
    = Ok ([], {[ "a" ]} : gset string, 1) /\
  (detect_new env_window false (world_of (Holds st) Missing)).1
    = Ok ([nameless_hit], {[ "a"; "" ]} : gset string, 2) /\
  (detect_new env_full false (world_of (Holds st0) Missing)).1
    = Ok ([nameless_hit], {[ "a"; "" ]} : gset string, 2).
Proof. vm_compute. repeat split; reflexivity. Qed.

(** ** Repeated ids *)

(** C7, as stated, fails: a window query that returns two records with the
    id "x" makes [detect_new] return both. *)
Lemma C7_repeated_id_is_returned_twice :
  let env := static_env 3 one_batch [twin_first; twin_second] [] accept_all in
  let w := world_of (Holds (state_of ["a"%string] 1 100)) Missing in
  exists new known c,
    (detect_new env false w).1 = Ok (new, known, c) /\ ~ one_record_per_id new.
Proof.
  exists [twin_first; twin_second], ({[ "a"; "x" ]} : gset string), 3.
  split; [vm_compute; reflexivity|].
  unfold one_record_per_id. intros Hnd.
  apply NoDup_cons in Hnd as [Hnotin _]. apply Hnotin.
  vm_compute. apply list_elem_of_here.
Qed.

Lemma filter_difference_unknown (known : gset string) (l : list hit) :
  filter (fun h => hit_id h ∈ id_set l ∖ known) l
  = filter (fun h => hit_id h ∉ known) l.
Proof.
  assert (H : forall l0, l0 ⊆ l ->
            filter (fun h => hit_id h ∈ id_set l ∖ known) l0
            = filter (fun h => hit_id h ∉ known) l0).
  { induction l0 as [|h l0 IH]; intros Hsub; [done|].
    assert (Hh : h ∈ l) by (apply Hsub, list_elem_of_here).
    assert (Hl0 : l0 ⊆ l) by (intros x Hx; by apply Hsub, list_elem_of_further).
    rewrite !filter_cons, IH by done.
    destruct (decide (hit_id h ∉ known)) as [Hn|Hn].
    - rewrite decide_True; [done|].
      apply elem_of_difference. split; [by apply id_set_elem|done].
    - rewrite decide_False; [done|].
      intros [_ ?]%elem_of_difference. done. }
  by apply H.
Qed.

Lemma filter_same_id_unknown (known : gset string) (l : list hit) (id : string) :
  id ∉ known ->
  filter (fun h => hit_id h = id) (filter (fun h => hit_id h ∉ known) l)
  = filter (fun h => hit_id h = id) l.
Proof.
  intros Hid. apply list_filter_filter_l. by intros h ->.
Qed.

(** C7, amended.  The ids are collapsed only in the sets; the list of new
    hits keeps every fetched record whose id is not known, in fetch order.
    On the window path and on the full-fetch path alike, the new hits are
    the fetched hits filtered by "id not known", so for an id that is not
    known the records returned are all the records fetched with that id. *)
Theorem C7_new_hits_keep_every_unknown_record env st w c w1 :
  state_file w = Holds st ->
  fetch_count env w = (Ok c, w1) ->
  let known := stored_known st in
  let unknown := filter (fun h => hit_id h ∉ known) in
  let same_id (id : string) := filter (fun h => hit_id h = id) in
  (forall recent_hits w2,
     c <> default 0 (total_count st) ->
     0 < default 0 (last_run_timestamp st) ->
     fetch_since env (default 0 (last_run_timestamp st)) w1 = (Ok recent_hits, w2) ->
     unknown recent_hits <> [] ->
     detect_new env false w
       = (Ok (unknown recent_hits, known ∪ id_set (unknown recent_hits), c), w2) /\
     forall id, id ∉ known ->
       same_id id (unknown recent_hits) = same_id id recent_hits) /\
  (forall force_full w2 all_hits w3,
     reaches_full_fetch env force_full st c w1 w2 ->
     fetch_all_companies env w2 = (Ok all_hits, w3) ->
     detect_new env force_full w
       = (Ok (unknown all_hits, known ∪ id_set all_hits, c), w3) /\
     forall id, id ∉ known ->
       same_id id (unknown all_hits) = same_id id all_hits).
Proof.
  intros Hst Hc known unknown same_id. split.
  - intros recent w2 Hne Hts Hs Hnew.
    split; [|intros id Hid; by apply filter_same_id_unknown].
    unfold detect_new, bind at 1, load_state. rewrite Hst.
    erewrite bind_ok by exact Hc. simpl. fold (stored_known st). fold known.
    apply Z.eqb_neq in Hne. rewrite Hne. simpl.
    apply Z.ltb_lt in Hts. rewrite Hts.
    erewrite bind_ok by exact Hs. fold (unknown recent).
    destruct (unknown recent) as [|h new']; [done|reflexivity].
  - intros force_full w2 all_hits w3 Hreach Hall.
    split; [|intros id Hid; by apply filter_same_id_unknown].
    rewrite (detect_new_full_fetch env force_full st w c w1 w2
               all_hits w3 Hst Hc Hreach Hall).
    unfold unknown, known. by rewrite filter_difference_unknown.
Qed.

Lemma C7_witness :
  let env := static_env 3 one_batch [twin_first; twin_second] [] accept_all in
  let st := state_of ["a"%string] 1 100 in
  let w := world_of (Holds st) Missing in
  (detect_new env false w).1
    = Ok ([twin_first; twin_second], {[ "a"; "x" ]} : gset string, 3).
Proof.
  intros env st w.
  pose (w1 := (fetch_count env w).2).
  pose (w2 := (fetch_since env 100 w1).2).
  destruct (C7_new_hits_keep_every_unknown_record env st w 3 w1) as [Hwin _];
    [reflexivity | vm_compute; reflexivity |].
  destruct (Hwin [twin_first; twin_second] w2) as [Hrun _];
    [vm_compute; discriminate | vm_compute; reflexivity | vm_compute; reflexivity
    | vm_compute; discriminate |].
  rewrite Hrun. vm_compute. reflexivity.
Defined.

(** * The delivery queue *)

Section QueueFacts.

Variable env : environment.

Lemma retry_pending_disabled cfg w :
  delivery_enabled cfg = false -> retry_pending env cfg w = (Ok tt, w).
Proof. unfold retry_pending, delivery_enabled. by intros ->. Qed.

(** The retry of a non-empty batch. *)
Lemma retry_pending_batch cfg w p :
  delivery_enabled cfg = true ->
  pending_file w = Holds p -> p <> [] ->
  exists sent failed tr tr',
    send_all_webhooks env (webhook_url cfg) p w = (Ok (sent, failed), extend tr w) /\
    retry_pending env cfg w
      = (Ok tt, {| state_file := state_file w; pending_file := pending_after failed;
                   trace := trace w ++ tr ++ tr' |}) /\
    Forall sink_effect tr /\ Forall pending_effect tr' /\
    sublist failed p /\
    (forall h, h ∈ p -> attempted_in (webhook_url cfg) h tr) /\
    (forall h, h ∈ p ->
       h ∈ failed \/ answered_in env true (webhook_url cfg) h (trace w) tr) /\
    (forall h, h ∈ failed -> answered_in env false (webhook_url cfg) h (trace w) tr).
Proof.
  intros Hen Hp Hne.
  destruct (send_all_webhooks_spec env (webhook_url cfg) p w)
    as (sent & failed & tr & Hsend & Hsink & Hsub & _ & Hatt & Hacc & Hrej).
  unfold retry_pending. unfold delivery_enabled in Hen. rewrite Hen.
  unfold bind at 1, load_pending. rewrite Hp.
  destruct p as [|h rest]; [done|].
  unfold bind at 1. rewrite Hsend. simpl.
  destruct failed as [|f failed].
  - destruct (clear_pending_spec (extend tr w)) as (tr' & Hclear & Hpe).
    exists sent, [], tr, tr'. rewrite Hclear. simpl. rewrite <- app_assoc.
    repeat split; auto.
  - exists sent, (f :: failed), tr, [EvOpenPending; EvDumpPending (f :: failed)].
    rewrite save_pending_run. simpl. rewrite <- app_assoc.
    repeat split; auto.
    constructor; [by left|]. constructor; [right; left; by eexists|constructor].
Qed.

(** The retry never queries the index and never touches the state file. *)
Lemma retry_pending_preserves cfg :
  preserves true false (fun e => ~ is_algolia e) (retry_pending env cfg).
Proof.
  intros w. destruct (delivery_enabled cfg) eqn:Hen;
    [|rewrite retry_pending_disabled by done; apply evolves_refl].
  destruct (pending_file w) as [| |p] eqn:Hp.
  - unfold retry_pending. unfold delivery_enabled in Hen. rewrite Hen.
    unfold bind, load_pending. rewrite Hp. apply evolves_refl.
  - unfold retry_pending. unfold delivery_enabled in Hen. rewrite Hen.
    unfold bind, load_pending. rewrite Hp. apply evolves_refl.
  - destruct p as [|h rest].
    + unfold retry_pending. unfold delivery_enabled in Hen. rewrite Hen.
      unfold bind, load_pending. rewrite Hp. apply evolves_refl.
    + destruct (retry_pending_batch cfg w (h :: rest) Hen Hp)
        as (sent & failed & tr & tr' & _ & Hrun & Hsink & Hpe & _); [done|].
      rewrite Hrun. simpl. split; [done|]. split; [done|].
      exists (tr ++ tr'). split; [done|]. apply Forall_app. split.
      * eapply Forall_impl; [exact Hsink|]. apply sink_effect_not_algolia.
      * eapply Forall_impl; [exact Hpe|].
        intros e [->|[[l ->]| ->]] (?&?&?); discriminate.
Qed.


End QueueFacts.





(** * Exit codes *)





(** * Ordering of the save and the delivery *)

Lemma deliver_new_preserves env cfg new :
  preserves true false (fun e => ~ is_algolia e) (deliver_new env cfg new).
Proof.
  intros w. unfold deliver_new.
  destruct new as [|h new]; [apply evolves_refl|].
  destruct (dry_run cfg); [apply evolves_refl|].
  destruct (nonempty (webhook_url cfg)); [|apply evolves_refl]. simpl.
  destruct (send_all_webhooks_spec env (webhook_url cfg) (h :: new) w)
    as (sent & failed & tr & Hsend & Hsink & _).
  assert (Hsend_ev : evolves true false (fun e => ~ is_algolia e) w (extend tr w)).
  { apply extend_evolves. eapply Forall_impl; [exact Hsink|].
    apply sink_effect_not_algolia. }
  unfold bind at 1. rewrite Hsend. simpl.
  destruct failed as [|f failed].
  - destruct (clear_pending_spec (extend tr w)) as (tr' & -> & Hpe). simpl.
    eapply evolves_trans; [exact Hsend_ev|].
    split; [done|]. split; [done|]. exists tr'. split; [done|].
    eapply Forall_impl; [exact Hpe|].
    intros e [->|[[l ->]| ->]] (?&?&?); discriminate.
  - unfold bind. rewrite save_pending_run. simpl.
    eapply evolves_trans; [exact Hsend_ev|].
    split; [done|]. split; [done|]. eexists. split; [reflexivity|].
    repeat constructor; intros (?&?&?); discriminate.
Qed.

(** The id of every hit returned as new is in the returned known ids. *)
Lemma detect_new_ids_known env force_full w new known c w' :
  detect_new env force_full w = (Ok (new, known, c), w') ->
  forall h, h ∈ new -> hit_id h ∈ known.
Proof.
  intros Hrun h Hh.
  destruct (state_file w) as [| |st] eqn:Hst.
  - revert Hrun. unfold detect_new, bind at 1, load_state. rewrite Hst.
    intros (k & w1 & _ & Hret)%bind_ok_inv. injection Hret as <- _ _ _.
    by apply elem_of_nil in Hh.
  - revert Hrun. unfold detect_new, bind at 1, load_state. rewrite Hst. discriminate.
  - destruct (detect_new_inv env _ _ _ _ _ _ _ Hst Hrun)
      as [[-> _]|[(recent & _ & _ & ->)|(all_hits & Hnew & ->)]].
    + by apply elem_of_nil in Hh.
    + apply elem_of_union. right. by apply id_set_elem.
    + rewrite Hnew in Hh. apply list_elem_of_filter in Hh as [_ Hh].
      apply elem_of_union. right. by apply id_set_elem.
Qed.

Lemma stored_known_new_state now (known : gset string) total :
  stored_known (new_state now (elements known) total) = known.
Proof.
  unfold stored_known, new_state, sorted. simpl.
  rewrite (list_to_set_perm_L _ _ (merge_sort_Permutation string_le (elements known))).
  apply list_to_set_elements_L.
Qed.

(** C9. In a run that gets as far as a result of [detect_new], the rest of
    the run is the delivery of the new hits started in a world where the
    state file already holds the updated known ids and count; between the
    retry of the pending batch and that save no request went to the sink;
    the delivery leaves the state file as saved; and a later [detect_new]
    that starts from this state file, whatever the index answers, returns
    no hit with the id of one of these new hits. *)
Theorem C9_state_saved_before_delivery env cfg w w1 new known c w2 :
  seed_flag cfg = false ->
  retry_pending env cfg w = (Ok tt, w1) ->
  detect_new env (full_fetch_flag cfg) w1 = (Ok (new, known, c), w2) ->
  let s := new_state (env_now env (trace w2)) (elements known) c in
  let w3 := {| state_file := Holds s; pending_file := pending_file w2;
               trace := trace w2 ++ [EvOpenState; EvDumpState s] |} in
  main env cfg w = deliver_new env cfg new w3 /\
  (exists tr, trace w2 = trace w1 ++ tr /\ Forall (fun e => ~ is_webhook e) tr) /\
  (exists tr, trace (main env cfg w).2 = trace w3 ++ tr) /\
  state_file (main env cfg w).2 = Holds s /\
  stored_known s = known /\ total_count s = Some c /\
  (forall h, h ∈ new -> hit_id h ∈ known) /\
  forall env' force_full' wc new' known' c' wc',
    state_file wc = Holds s ->
    detect_new env' force_full' wc = (Ok (new', known', c'), wc') ->
    forall h h', h ∈ new -> h' ∈ new' -> hit_id h' <> hit_id h.
Proof.
  intros Hseed Hretry Hd s w3.
  assert (Hmain : main env cfg w = deliver_new env cfg new w3).
  { unfold main. erewrite bind_ok by exact Hretry.
    unfold detect_and_deliver. rewrite Hseed.
    unfold bind at 1, try_except_request. rewrite Hd.
    unfold bind. by rewrite save_state_run. }
  pose proof (detect_new_preserves env (full_fetch_flag cfg) w1) as (_ & _ & Htr).
  rewrite Hd in Htr. simpl in Htr.
  pose proof (deliver_new_preserves env cfg new w3) as (Hsf & _ & trd & Htrd & _).
  pose proof (detect_new_ids_known _ _ _ _ _ _ _ Hd) as Hids.
  assert (Hknown : stored_known s = known) by apply stored_known_new_state.
  rewrite Hmain. repeat split; auto.
  - by exists trd.
  - intros env' ff' wc new' known' c' wc' Hwc Hd' h h' Hh Hh' Heq.
    destruct (detect_new_inv env' _ _ _ _ _ _ _ Hwc Hd')
      as [[-> _]|[(recent & Hnew & _ & _)|(all_hits & Hnew & _)]].
    + by apply elem_of_nil in Hh'.
    + rewrite Hnew in Hh'. apply list_elem_of_filter in Hh' as [Hn _].
      apply Hn. rewrite Heq, Hknown. by apply Hids.
    + rewrite Hnew in Hh'. apply list_elem_of_filter in Hh' as [Hn _].
      apply elem_of_difference in Hn as [_ Hn].
      apply Hn. rewrite Heq, Hknown. by apply Hids.
Qed.

(** A run that detects "n1"; the sink refuses it; the next run sees "n1"
    again in the window query and does not report it. *)
Lemma C9_witness :
  let env := static_env 2 one_batch [hit_of "n1"] [] refuse_all in
  let w := world_of (Holds (state_of ["a"%string] 1 100)) Missing in
  let env' := static_env 3 one_batch [hit_of "n1"; hit_of "n2"] [] accept_all in
  let wc := world_of (state_file (main env delivering w).2) Missing in
  (detect_new env false w).1 = Ok ([hit_of "n1"], {[ "a"; "n1" ]} : gset string, 2) /\
  (detect_new env' false wc).1
    = Ok ([hit_of "n2"], {[ "a"; "n1"; "n2" ]} : gset string, 3) /\
  hit_id (hit_of "n2") <> hit_id (hit_of "n1").
Proof.
  intros env w env' wc.
  split; [vm_compute; reflexivity|]. split; [vm_compute; reflexivity|].
  destruct (C9_state_saved_before_delivery env delivering w w [hit_of "n1"]
              ({[ "a"; "n1" ]} : gset string) 2 (detect_new env false w).2)
    as (_ & _ & _ & Hsaved & _ & _ & _ & Hnext);
    [reflexivity | reflexivity | vm_compute; reflexivity |].
  apply (Hnext env' false wc [hit_of "n2"] ({[ "a"; "n1"; "n2" ]} : gset string) 3
           (detect_new env' false wc).2).
  - exact Hsaved.
  - vm_compute; reflexivity.
  - apply list_elem_of_here.
  - apply list_elem_of_here.
Defined.

(** * Atomicity of the save *)




(** * Further properties of the program *)

(** ** Retries *)

(** X1. [algolia_query] sends one, two or three requests, all to the same
    URL with the same parameters; it stops at the first answer and returns
    it; it pauses 2 s after a first failure and 4 s after a second one and
    never after the last request; only after three failures does it raise,
    and then the transport error.  It touches neither file. *)
Theorem X1_algolia_query_retries env index params w :
  let url := algolia_url index in
  let post := EvAlgolia url params in
  let t1 := trace w in
  let t2 := t1 ++ [post; EvSleep 2000] in
  let t3 := t2 ++ [post; EvSleep 4000] in
  let r := (algolia_query env index params w).1 in
  let w' := (algolia_query env index params w).2 in
  state_file w' = state_file w /\ pending_file w' = pending_file w /\
  match env_algolia env t1 url params, env_algolia env t2 url params,
        env_algolia env t3 url params with
  | Some a, _, _ => r = Ok a /\ trace w' = t1 ++ [post]
  | None, Some a, _ => r = Ok a /\ trace w' = t2 ++ [post]
  | None, None, Some a => r = Ok a /\ trace w' = t3 ++ [post]
  | None, None, None => r = Raise RequestException /\ trace w' = t3 ++ [post]
  end.
Proof.
  intros url post t1 t2 t3 r w'. subst r w'.
  unfold algolia_query, MAX_RETRIES. simpl.
  unfold try_except_request, algolia_post, bind, sleep, emit, log_event. simpl.
  change (1000 * 2 ^ Z.of_nat 1) with 2000.
  change (1000 * 2 ^ Z.of_nat 2) with 4000.
  fold url. fold post. fold t1.
  destruct (env_algolia env t1 url params) as [a1|] eqn:H1; simpl; [auto|].
  replace ((t1 ++ [post]) ++ [EvSleep 2000]) with t2
    by (unfold t2; by rewrite <- app_assoc).
  destruct (env_algolia env t2 url params) as [a2|] eqn:H2; simpl; [auto|].
  replace ((t2 ++ [post]) ++ [EvSleep 4000]) with t3
    by (unfold t3; by rewrite <- app_assoc).
  destruct (env_algolia env t3 url params) as [a3|] eqn:H3; simpl; auto.
Qed.

(** X2. [send_webhook] never raises.  It sends one, two or three requests
    with the same payload, with the same pauses as the index client; it
    returns [True] as soon as a request is accepted and sends nothing after
    it, so that at most one request of a call is accepted; it returns
    [False] only after three refused requests. *)
Theorem X2_send_webhook_stops_at_first_success env url p w :
  let post := EvWebhook url p in
  let t1 := trace w in
  let t2 := t1 ++ [post; EvSleep 2000] in
  let t3 := t2 ++ [post; EvSleep 4000] in
  let r := (send_webhook env url p w).1 in
  let w' := (send_webhook env url p w).2 in
  state_file w' = state_file w /\ pending_file w' = pending_file w /\
  match env_webhook env t1 url p, env_webhook env t2 url p with
  | true, _ => r = Ok true /\ trace w' = t1 ++ [post]
  | false, true => r = Ok true /\ trace w' = t2 ++ [post]
  | false, false => r = Ok (env_webhook env t3 url p) /\ trace w' = t3 ++ [post]
  end.
Proof.
  intros post t1 t2 t3 r w'. subst r w'.
  unfold send_webhook, MAX_RETRIES. simpl.
  unfold webhook_post, bind, sleep, emit, ret, log_event. simpl.
  change (1000 * 2 ^ Z.of_nat 1) with 2000.
  change (1000 * 2 ^ Z.of_nat 2) with 4000.
  fold post. fold t1.
  destruct (env_webhook env t1 url p) eqn:H1; simpl; [auto|].
  replace ((t1 ++ [post]) ++ [EvSleep 2000]) with t2
    by (unfold t2; by rewrite <- app_assoc).
  destruct (env_webhook env t2 url p) eqn:H2; simpl; [auto|].
  replace ((t2 ++ [post]) ++ [EvSleep 4000]) with t3
    by (unfold t3; by rewrite <- app_assoc).
  auto.
Qed.


(** X4. The three operations of the index client touch neither the state
    file nor the pending file and never send anything to the sink, whether
    they return or raise; and the only exception they raise is the transport
    error. *)
Theorem X4_index_client_only_queries env timestamp w :
  evolves true true index_effect w (fetch_count env w).2 /\
  evolves true true index_effect w (fetch_since env timestamp w).2 /\
  evolves true true index_effect w (fetch_all_companies env w).2 /\
  (forall e w', fetch_count env w = (Raise e, w') -> e = RequestException) /\
  (forall e w', fetch_since env timestamp w = (Raise e, w') -> e = RequestException) /\
  (forall e w', fetch_all_companies env w = (Raise e, w') -> e = RequestException).
Proof.
  split; [apply fetch_count_index|].
  split; [apply fetch_since_preserves|].
  split; [apply fetch_all_companies_preserves|].
  split; [intros e w'; apply fetch_count_raises|].
  split; [intros e w'; apply fetch_since_raises|].
  intros e w'; apply fetch_all_companies_raises.
Qed.

(** ** The full fetch *)

#[global] Instance string_le_total : Total string_le.
Proof.
  intros a b. unfold string_le.
  destruct (String.leb_total a b) as [H|H]; rewrite H; [by left|by right].
Qed.

Lemma sorted_elem_of (l : list string) (x : string) : x ∈ sorted l <-> x ∈ l.
Proof. unfold sorted. by rewrite merge_sort_Permutation. Qed.

(** X5. When the facet query is answered, [fetch_batch_names] returns the
    names of the batch facet of the answer, each once, in increasing order;
    an answer without [facets] or without a [batch] facet gives no name. *)
Theorem X5_fetch_batch_names_sorted env w r w' :
  algolia_query env INDEX_PRODUCTION facets_params w = (Ok r, w') ->
  exists names,
    fetch_batch_names env w = (Ok names, w') /\
    Sorted string_le names /\ NoDup names /\
    (forall b, b ∈ names <-> is_Some (facet_batches r !! b)) /\
    (facets r = None -> names = []) /\
    (forall m, facets r = Some m -> m !! "batch"%string = None -> names = []).
Proof.
  intros Hq. exists (sorted (elements (dom (facet_batches r)))).
  split; [unfold fetch_batch_names; by erewrite bind_ok by exact Hq|].
  split; [apply Sorted_merge_sort, _|].
  split.
  { unfold sorted. rewrite merge_sort_Permutation. apply NoDup_elements. }
  split.
  { intros b. by rewrite sorted_elem_of, elem_of_elements, elem_of_dom. }
  split.
  - intros Hf. unfold facet_batches. rewrite Hf. simpl.
    rewrite lookup_empty. simpl. rewrite dom_empty_L, elements_empty. done.
  - intros m Hf Hb. unfold facet_batches. rewrite Hf. simpl. rewrite Hb. simpl.
    rewrite dom_empty_L, elements_empty. done.
Qed.

Lemma X5_witness :
  let env := static_env 2 {[ "W24"%string := 1; "S23"%string := 1 ]} [] [] accept_all in
  let w := world_of Missing Missing in
  (fetch_batch_names env w).1 = Ok ["S23"; "W24"]%string.
Proof.
  intros env w.
  destruct (X5_fetch_batch_names_sorted env w
              (static_answer 2 {[ "W24"%string := 1; "S23"%string := 1 ]} [] []
                 (algolia_url INDEX_PRODUCTION) facets_params)
              (algolia_query env INDEX_PRODUCTION facets_params w).2)
    as (names & Hrun & _); [vm_compute; reflexivity|].
  vm_compute. reflexivity.
Defined.

Lemma algolia_query_reliable env answer index params w :
  reliable_index env answer ->
  algolia_query env index params w
  = (Ok (answer (algolia_url index) params),
     extend [EvAlgolia (algolia_url index) params] w).
Proof.
  intros Hrel. unfold algolia_query, MAX_RETRIES. simpl.
  unfold try_except_request, algolia_post. by rewrite Hrel.
Qed.

Lemma fetch_batches_reliable env answer batches all_hits w :
  reliable_index env answer ->
  fetch_batches env batches all_hits w
  = (Ok (all_hits ++ (batches ≫= batch_hits_of answer)),
     extend (batches ≫= batch_round) w).
Proof.
  intros Hrel. revert all_hits w.
  induction batches as [|b rest IH]; intros all_hits w; simpl.
  - by rewrite app_nil_r, extend_nil.
  - erewrite bind_ok by (by apply algolia_query_reliable).
    unfold bind at 1, sleep, emit. rewrite log_event_extend, extend_extend.
    rewrite IH, extend_extend. unfold batch_hits_of at 2, batch_round at 2.
    by rewrite <- !app_assoc.
Qed.

(** X6. Against an index that never fails and answers by the request alone,
    [fetch_all_companies] sends the facet query and then one query per batch
    name, in increasing order of the names, with a pause of 0.1 s after each;
    it returns the hits of the batches concatenated in that order, keeps
    both files, and sends nothing else. *)
Theorem X6_fetch_all_companies_covers_every_batch env answer w :
  reliable_index env answer ->
  let url := algolia_url INDEX_PRODUCTION in
  let names := sorted (elements (dom (facet_batches (answer url facets_params)))) in
  fetch_all_companies env w
  = (Ok (names ≫= batch_hits_of answer),
     extend (EvAlgolia url facets_params :: (names ≫= batch_round)) w).
Proof.
  intros Hrel url names. unfold fetch_all_companies, fetch_batch_names.
  unfold bind at 1. unfold bind at 1.
  rewrite (algolia_query_reliable env answer _ _ _ Hrel). unfold ret.
  fold url. fold (facet_batches (answer url facets_params)). fold names.
  rewrite (fetch_batches_reliable env answer _ _ _ Hrel), extend_extend.
  done.
Qed.

Lemma static_env_reliable count batches recent batch_hits sink :
  reliable_index (static_env count batches recent batch_hits sink)
    (static_answer count batches recent batch_hits).
Proof.
  intros tr url params. unfold static_env, static_answer. simpl.
  destruct (decide (url = algolia_url INDEX_BY_LAUNCH)); [done|].
  by destruct (decide (params = facets_params)).
Qed.

Lemma X6_witness :
  let env := static_env 2 {[ "W24"%string := 1; "S23"%string := 1 ]} []
               [hit_of "a"] accept_all in
  (fetch_all_companies env (world_of Missing Missing)).1
  = Ok [hit_of "a"; hit_of "a"].
Proof.
  intros env.
  rewrite (X6_fetch_all_companies_covers_every_batch env
             (static_answer 2 {[ "W24"%string := 1; "S23"%string := 1 ]} []
                [hit_of "a"])
             (world_of Missing Missing)
             (static_env_reliable _ _ _ _ _)).
  vm_compute. reflexivity.
Defined.

(** ** The two files *)


(** X8. What [save_pending] writes, [load_pending] reads back; after
    [clear_pending] there is no batch to load; clearing twice is clearing
    once, and clearing when there is no file does nothing; neither
    operation touches the state file. *)
Theorem X8_pending_file_round_trip l w :
  load_pending (save_pending l w).2 = (Ok (Some l), (save_pending l w).2) /\
  load_pending (clear_pending w).2 = (Ok None, (clear_pending w).2) /\
  clear_pending (clear_pending w).2 = (Ok tt, (clear_pending w).2) /\
  (pending_file w = Missing -> clear_pending w = (Ok tt, w)) /\
  state_file (save_pending l w).2 = state_file w /\
  state_file (clear_pending w).2 = state_file w.
Proof.
  assert (Hnone : pending_file w = Missing -> clear_pending w = (Ok tt, w)).
  { intros Hm. unfold clear_pending. by rewrite Hm. }
  revert Hnone. rewrite save_pending_run.
  destruct (clear_pending_spec w) as (tr & Hclear & _).
  rewrite Hclear. simpl. intros Hnone.
  split; [done|]. split; [done|]. split; [done|]. split; done.
Qed.

(** ** Seeding *)

(** X9. When [seed] returns, the ids it returns and saves are the distinct
    non-empty ids of the hits of the full fetch, each once, and the count it
    saves is the one the count query returned. *)
Theorem X9_seed_saves_distinct_non_empty_ids env w all_hits w1 known w' :
  fetch_all_companies env w = (Ok all_hits, w1) ->
  seed env w = (Ok known, w') ->
  NoDup known /\
  (forall id, id ∈ known <-> id <> ""%string /\ exists h, h ∈ all_hits /\ hit_id h = id) /\
  exists total w2,
    fetch_count env w1 = (Ok total, w2) /\
    state_file w' = Holds (new_state (env_now env (trace w2)) known total).
Proof.
  intros Hall. unfold seed. erewrite bind_ok by exact Hall.
  intros (total & w2 & Hc & Hrest)%bind_ok_inv.
  apply bind_ok_inv in Hrest as ([] & w3 & Hsave & Hret).
  injection Hret as <- <-.
  split; [apply NoDup_elements|]. split.
  - intros id. rewrite elem_of_elements, elem_of_list_to_set, list_elem_of_filter,
      list_elem_of_fmap. split.
    + intros [Hne (h & -> & Hh)]. eauto.
    + intros [Hne (h & Hh & <-)]. eauto.
  - exists total, w2. split; [done|].
    rewrite save_state_run in Hsave. injection Hsave as <-. done.
Qed.

Lemma X9_witness :
  let env := static_env 2 {[ "W24"%string := 1 ]} []
               [hit_of "a"; nameless_hit; hit_of "a"] accept_all in
  let w := world_of Missing Missing in
  (seed env w).1 = Ok ["a"%string] /\ NoDup ["a"%string].
Proof.
  intros env w. split; [vm_compute; reflexivity|].
  destruct (X9_seed_saves_distinct_non_empty_ids env w
              [hit_of "a"; nameless_hit; hit_of "a"]
              (fetch_all_companies env w).2 ["a"%string] (seed env w).2)
    as (Hnd & _); [vm_compute; reflexivity | vm_compute; reflexivity | exact Hnd].
Defined.

(** ** Detection with a persisted state *)

Lemma detect_new_with_state env force_full st w :
  state_file w = Holds st ->
  evolves true true index_effect w (detect_new env force_full w).2.
Proof.
  intros Hst. unfold detect_new, bind at 1, load_state. rewrite Hst.
  apply (preserves_bind true true index_effect); [apply fetch_count_index|].
  intros c.
  destruct ((c =? default 0 (total_count st)) && negb force_full);
    [apply preserves_ret|].
  destruct (negb force_full && (0 <? default 0 (last_run_timestamp st))).
  - apply preserves_bind; [apply fetch_since_preserves|].
    intros recent.
    destruct (filter _ recent); [|apply preserves_ret].
    destruct (_ <? _); [|apply preserves_ret].
    apply full_fetch_preserves.
  - apply full_fetch_preserves.
Qed.

Lemma seed_raise_keeps_files env w e w' :
  seed env w = (Raise e, w') ->
  state_file w' = state_file w /\ pending_file w' = pending_file w.
Proof.
  unfold seed, bind at 1.
  pose proof (fetch_all_companies_preserves env w) as (Hs1 & Hp1 & _).
  destruct (fetch_all_companies env w) as [[all_hits|e1] w1]; simpl in *.
  - unfold bind at 1.
    pose proof (fetch_count_index env w1) as (Hs2 & Hp2 & _).
    destruct (fetch_count env w1) as [[total|e2] w2]; simpl in *.
    + unfold bind. rewrite save_state_run. discriminate.
    + intros [= _ <-]. rewrite Hs2, Hp2, Hs1, Hp1; auto.
  - intros [= _ <-]. auto.
Qed.

(** X10. [detect_new] writes the state file only when it seeds.  With a
    persisted state it only queries the index and leaves both files as they
    are, whether it returns or raises; on a first run that raises, there is
    still no state file; and an unreadable state file makes it raise the
    decoding error at once, with nothing sent. *)
Theorem X10_detect_new_writes_state_only_when_seeding env force_full w :
  (forall st, state_file w = Holds st ->
     evolves true true index_effect w (detect_new env force_full w).2) /\
  (state_file w = Missing ->
     forall e w', detect_new env force_full w = (Raise e, w') ->
       state_file w' = Missing /\ pending_file w' = pending_file w) /\
  (state_file w = Unparsable ->
     detect_new env force_full w = (Raise JSONDecodeError, w)).
Proof.
  split; [intros st; apply detect_new_with_state|]. split.
  - intros Hst e w'. unfold detect_new, bind at 1, load_state. rewrite Hst.
    unfold bind. destruct (seed env w) as [[known|e1] w1] eqn:Hseed; [discriminate|].
    intros [= _ <-]. destruct (seed_raise_keeps_files _ _ _ _ Hseed) as [Hs Hp].
    by rewrite Hs, Hp.
  - intros Hst. unfold detect_new, bind, load_state. by rewrite Hst.
Qed.

Lemma X10_witness :
  let env := static_env 2 one_batch [hit_of "n1"] [] accept_all in
  let w := world_of (Holds (state_of ["a"%string] 1 100)) (Holds [hit_of "p1"]) in
  state_file (detect_new env false w).2 = state_file w /\
  pending_file (detect_new env false w).2 = pending_file w.
Proof.
  intros env w.
  destruct (X10_detect_new_writes_state_only_when_seeding env false w) as [Hkeep _].
  destruct (Hkeep (state_of ["a"%string] 1 100)) as (Hs & Hp & _); [reflexivity|].
  split; [by apply Hs | by apply Hp].
Defined.

(** X11. When the count has gone down and the window query returns no hit
    with an unknown id, [detect_new] reports nothing, keeps the known ids as
    stored, returns the new, smaller count and does not run the full fetch:
    removals are not tracked. *)
Theorem X11_smaller_count_reports_nothing env st w c w1 recent_hits w2 :
  state_file w = Holds st ->
  fetch_count env w = (Ok c, w1) ->
  c < default 0 (total_count st) ->
  0 < default 0 (last_run_timestamp st) ->
  fetch_since env (default 0 (last_run_timestamp st)) w1 = (Ok recent_hits, w2) ->
  filter (fun h => hit_id h ∉ stored_known st) recent_hits = [] ->
  detect_new env false w = (Ok ([], stored_known st, c), w2).
Proof.
  intros Hst Hc Hlt Hts Hs Hnone.
  unfold detect_new, bind at 1, load_state. rewrite Hst.
  erewrite bind_ok by exact Hc. simpl. fold (stored_known st).
  assert (Hne : (c =? default 0 (total_count st)) = false) by (apply Z.eqb_neq; lia).
  rewrite Hne. simpl. apply Z.ltb_lt in Hts. rewrite Hts.
  erewrite bind_ok by exact Hs. rewrite Hnone.
  assert (Hge : (default 0 (total_count st) <? c) = false) by (apply Z.ltb_ge; lia).
  by rewrite Hge.
Qed.

(** The scenario of the specification: 100 companies stored, 99 reported. *)
Lemma X11_witness :
  let env := static_env 99 one_batch [hit_of "a"] [hit_of "zz"] accept_all in
  let st := state_of ["a"; "b"]%string 100 1700000000 in
  let w := world_of (Holds st) Missing in
  (detect_new env false w).1 = Ok ([], stored_known st, 99).
Proof.
  intros env st w.
  rewrite (X11_smaller_count_reports_nothing env st w 99 (fetch_count env w).2
             [hit_of "a"] (fetch_since env 1700000000 (fetch_count env w).2).2);
    [reflexivity | reflexivity | vm_compute; reflexivity | reflexivity
    | reflexivity | vm_compute; reflexivity | vm_compute; reflexivity].
Defined.

(** X12. A state saved by one run and read by the next: when the count
    query of the next run returns the count that was saved and the full
    fetch is not forced, [detect_new] returns no new hit and exactly the set
    of ids that was saved. *)
Theorem X12_saved_state_with_same_count_detects_nothing
    env env' (known : gset string) c w w4 :
  let w3 := (save_state env (elements known) c w).2 in
  fetch_count env' w3 = (Ok c, w4) ->
  detect_new env' false w3 = (Ok ([], known, c), w4).
Proof.
  intros w3 Hc. unfold w3 in *. rewrite save_state_run in *.
  unfold detect_new, bind at 1, load_state. simpl.
  erewrite bind_ok by exact Hc. simpl. rewrite Z.eqb_refl. simpl.
  pose proof (stored_known_new_state (env_now env (trace w)) known c) as Hk.
  unfold stored_known, new_state in Hk. simpl in Hk. unfold ret. by rewrite Hk.
Qed.

Lemma X12_witness :
  let env := static_env 7 one_batch [hit_of "x"] [hit_of "y"] accept_all in
  let known : gset string := {[ "a"; "b" ]} in
  let w3 := (save_state env (elements known) 7 (world_of Missing Missing)).2 in
  (detect_new env false w3).1 = Ok ([], known, 7).
Proof.
  intros env known w3.
  pose proof (X12_saved_state_with_same_count_detects_nothing env env known 7
                (world_of Missing Missing) (fetch_count env w3).2) as H.
  cbv zeta in H. fold w3 in H. rewrite H; [reflexivity | vm_compute; reflexivity].
Defined.

(** ** Whole runs *)

Lemma detect_new_known_grows env force_full st w new known' c w' :
  state_file w = Holds st ->
  detect_new env force_full w = (Ok (new, known', c), w') ->
  stored_known st ⊆ known'.
Proof.
  intros Hst Hrun.
  destruct (detect_new_inv env _ _ _ _ _ _ _ Hst Hrun)
    as [[_ ->]|[(recent & _ & _ & ->)|(all_hits & _ & ->)]]; set_solver.
Qed.

Lemma detect_new_raise_keeps_files env force_full w e w' :
  detect_new env force_full w = (Raise e, w') ->
  state_file w' = state_file w /\ pending_file w' = pending_file w.
Proof.
  intros Hrun. destruct (state_file w) as [| |st] eqn:Hst.
  - revert Hrun. unfold detect_new, bind at 1, load_state. rewrite Hst.
    unfold bind. destruct (seed env w) as [[known|e1] w1] eqn:Hseed; [discriminate|].
    intros [= _ <-]. destruct (seed_raise_keeps_files _ _ _ _ Hseed) as [Hs Hp].
    by rewrite Hs, Hp.
  - revert Hrun. unfold detect_new, bind, load_state. rewrite Hst.
    intros [= _ <-]. done.
  - destruct (detect_new_with_state env force_full st w Hst) as (Hs & Hp & _).
    rewrite Hrun in Hs, Hp. simpl in *. rewrite Hs, Hp; auto.
Qed.

(** X13. A run without [--seed] that starts with a readable state never
    forgets an id: however the run ends (normally, with a failed delivery,
    with a transport error, with an unreadable pending file), the state
    file holds afterwards a record whose ids include all the ids stored
    before. *)
Theorem X13_run_never_forgets_an_id env cfg w st :
  seed_flag cfg = false ->
  state_file w = Holds st ->
  exists s', state_file (main env cfg w).2 = Holds s' /\
    stored_known st ⊆ stored_known s'.
Proof.
  intros Hseed Hst. unfold main, bind at 1.
  pose proof (retry_pending_preserves env cfg w) as (Hs1 & _).
  destruct (retry_pending env cfg w) as [[[]|e] w1]; simpl in Hs1;
    [|exists st; simpl; by rewrite Hs1].
  assert (Hst1 : state_file w1 = Holds st) by (by rewrite Hs1).
  unfold detect_and_deliver. rewrite Hseed.
  unfold bind at 1, try_except_request.
  destruct (detect_new env (full_fetch_flag cfg) w1)
    as [[[[new known] c]|e] w2] eqn:Hd.
  - unfold bind at 1. rewrite save_state_run.
    set (s := new_state _ _ _).
    set (w3 := {| state_file := Holds s; pending_file := _; trace := _ |}).
    pose proof (deliver_new_preserves env cfg new w3) as (Hs3 & _).
    exists s. split; [by rewrite Hs3|].
    unfold s. rewrite stored_known_new_state.
    eapply detect_new_known_grows; eauto.
  - destruct (detect_new_raise_keeps_files _ _ _ _ _ Hd) as [Hs2 _].
    exists st. destruct e; simpl; by rewrite Hs2.
Qed.

Lemma X13_witness :
  let env := static_env 2 one_batch [hit_of "n1"] [] refuse_all in
  let st := state_of ["a"%string] 1 100 in
  let w := world_of (Holds st) Missing in
  exists s', state_file (main env delivering w).2 = Holds s' /\
    stored_known st ⊆ stored_known s'.
Proof.
  intros env st w.
  apply (X13_run_never_forgets_an_id env delivering w st); reflexivity.
Defined.

(** X14. When detection raises the transport error, the run exits with 1
    and the state file is the one the run started with; the pending file is
    as the retry left it, and nothing was sent to the sink after the
    retry.  The next run therefore starts from the same known ids. *)
Theorem X14_aborted_detection_keeps_the_state env cfg w w1 :
  seed_flag cfg = false ->
  retry_pending env cfg w = (Ok tt, w1) ->
  detection_aborts env cfg w1 ->
  (main env cfg w).1 = Raise (SystemExit 1) /\
  state_file (main env cfg w).2 = state_file w /\
  pending_file (main env cfg w).2 = pending_file w1 /\
  exists tr, trace (main env cfg w).2 = trace w1 ++ tr /\
    Forall (fun e => ~ is_webhook e) tr.
Proof.
  intros Hseed Hretry [w2 Hd].
  pose proof (retry_pending_preserves env cfg w) as (Hs1 & _).
  rewrite Hretry in Hs1. simpl in Hs1.
  destruct (detect_new_raise_keeps_files _ _ _ _ _ Hd) as [Hs2 Hp2].
  pose proof (detect_new_preserves env (full_fetch_flag cfg) w1) as (_ & _ & Htr).
  rewrite Hd in Htr. simpl in Htr.
  assert (Hmain : main env cfg w = (Raise (SystemExit 1), w2)).
  { unfold main. erewrite bind_ok by exact Hretry.
    unfold detect_and_deliver. rewrite Hseed.
    unfold bind, try_except_request. by rewrite Hd. }
  rewrite Hmain. simpl. rewrite Hs2, Hs1; auto.
Qed.

(** An index that is down. *)
Lemma X14_witness :
  let env := {| env_algolia := fun _ _ _ => None;
                env_webhook := fun _ _ _ => true;
                env_now := fun _ => 1700000000000000 |} in
  let w := world_of (Holds (state_of ["a"%string] 1 100)) Missing in
  exit_code (main env delivering w).1 = 1 /\
  state_file (main env delivering w).2 = state_file w.
Proof.
  intros env w.
  destruct (X14_aborted_detection_keeps_the_state env delivering w w)
    as (Hr & Hs & _); [reflexivity | reflexivity | |].
  - exists (detect_new env false w).2. vm_compute. reflexivity.
  - rewrite Hr. split; [reflexivity|exact Hs].
Defined.



(** X16. A run with [--seed], once past the retry of the pending batch,
    fetches everything and reads the count; when both succeed it ends
    normally with a state file that holds the distinct non-empty ids fetched
    and the count read, whatever the state file held before, readable or
    not; it sends nothing to the sink after the retry and leaves the pending
    file as the retry left it. *)
Theorem X16_forced_seed_rebuilds_the_state env cfg w w1 all_hits w2 total w3 :
  seed_flag cfg = true ->
  retry_pending env cfg w = (Ok tt, w1) ->
  fetch_all_companies env w1 = (Ok all_hits, w2) ->
  fetch_count env w2 = (Ok total, w3) ->
  let s := new_state (env_now env (trace w3)) (elements (seeded_ids all_hits)) total in
  main env cfg w
  = (Ok tt, {| state_file := Holds s; pending_file := pending_file w1;
               trace := trace w3 ++ [EvOpenState; EvDumpState s] |}) /\
  stored_known s = seeded_ids all_hits /\
  total_count s = Some total /\
  (""%string ∉ stored_known s) /\
  exists tr, trace w3 = trace w1 ++ tr /\ Forall index_effect tr.
Proof.
  intros Hseed Hretry Hall Hc s.
  pose proof (fetch_all_companies_preserves env w1) as Hev1.
  rewrite Hall in Hev1. simpl in Hev1.
  pose proof (fetch_count_index env w2) as Hev2.
  rewrite Hc in Hev2. simpl in Hev2.
  destruct (evolves_trans _ _ _ _ _ _ Hev1 Hev2) as (_ & Hp & Htr).
  assert (Hknown : stored_known s = seeded_ids all_hits)
    by apply stored_known_new_state.
  split; [|split; [done|split; [done|split; [|done]]]].
  - unfold main. erewrite bind_ok by exact Hretry.
    unfold detect_and_deliver. rewrite Hseed.
    unfold seed. unfold bind at 1. unfold bind at 1. rewrite Hall.
    unfold bind at 1. rewrite Hc. fold (seeded_ids all_hits).
    unfold bind. rewrite save_state_run. fold s. unfold ret.
    by rewrite Hp.
  - rewrite Hknown. unfold seeded_ids.
    rewrite elem_of_list_to_set, list_elem_of_filter. by intros [? _].
Qed.

Lemma X16_witness :
  let env := static_env 2 {[ "W24"%string := 1 ]} []
               [hit_of "a"; nameless_hit] accept_all in
  let cfg := {| webhook_url := ""; dry_run := false;
                seed_flag := true; full_fetch_flag := false |} in
  let w := world_of Unparsable Missing in
  (main env cfg w).1 = Ok tt /\
  (known_ids <$> match state_file (main env cfg w).2 with
                 | Holds s => Some s | _ => None end)
    = Some (Some ["a"%string]).
Proof.
  intros env cfg w.
  destruct (X16_forced_seed_rebuilds_the_state env cfg w w
              [hit_of "a"; nameless_hit] (fetch_all_companies env w).2 2
              (fetch_count env (fetch_all_companies env w).2).2)
    as (Hmain & _);
    [reflexivity | reflexivity | vm_compute; reflexivity | vm_compute; reflexivity |].
  rewrite Hmain. split; [reflexivity | vm_compute; reflexivity].
Defined.

(** X17. An unreadable state file is not replaced by a fresh seed: a run
    without [--seed] that gets past the retry of the pending batch stops
    with the decoding error, uncaught, exit code 1; it sends no request to
    the index and leaves the state file as it is. *)
Theorem X17_unreadable_state_stops_the_run env cfg w w1 :
  seed_flag cfg = false ->
  state_file w = Unparsable ->
  retry_pending env cfg w = (Ok tt, w1) ->
  main env cfg w = (Raise JSONDecodeError, w1) /\
  exit_code (main env cfg w).1 = 1 /\
  state_file w1 = Unparsable.
Proof.
  intros Hseed Hst Hretry.
  pose proof (retry_pending_preserves env cfg w) as (Hs1 & _).
  rewrite Hretry in Hs1. simpl in Hs1.
  assert (Hst1 : state_file w1 = Unparsable) by (by rewrite Hs1).
  assert (Hmain : main env cfg w = (Raise JSONDecodeError, w1)).
  { unfold main. erewrite bind_ok by exact Hretry.
    unfold detect_and_deliver. rewrite Hseed.
    unfold try_except_request, detect_new, load_state, bind. by rewrite Hst1. }
  by rewrite Hmain.
Qed.

Lemma X17_witness :
  let env := static_env 2 one_batch [hit_of "n1"] [] accept_all in
  let w := world_of Unparsable Missing in
  main env delivering w = (Raise JSONDecodeError, w).
Proof.
  intros env w.
  destruct (X17_unreadable_state_stops_the_run env delivering w w)
    as (Hmain & _); [reflexivity | reflexivity | reflexivity | exact Hmain].
Defined.

(** X18. The retry of the pending batch at its edges.  Without delivery it
    does nothing, whatever the pending file holds.  With no pending file, or
    with a pending file that holds an empty list, it does nothing and keeps
    the file.  With an unreadable pending file, a delivering run stops at
    once with the decoding error, before any request and any write; this is
    the file a [save_pending] interrupted after the truncation leaves. *)
Theorem X18_retry_pending_edges env cfg w :
  (delivery_enabled cfg = false -> retry_pending env cfg w = (Ok tt, w)) /\
  (pending_file w = Missing \/ pending_file w = Holds [] ->
     retry_pending env cfg w = (Ok tt, w)) /\
  (delivery_enabled cfg = true -> pending_file w = Unparsable ->
     main env cfg w = (Raise JSONDecodeError, w)) /\
  (forall l, pending_file (crash_after 1 (write_pending_steps l) w) = Unparsable).
Proof.
  split; [apply retry_pending_disabled|]. split; [|split; [|done]].
  - intros Hp. unfold retry_pending.
    destruct (nonempty (webhook_url cfg) && negb (dry_run cfg)); [|done].
    unfold bind, load_pending. by destruct Hp as [-> | ->].
  - intros Hen Hp. unfold main, retry_pending. unfold delivery_enabled in Hen.
    rewrite Hen. unfold bind, load_pending. by rewrite Hp.
Qed.

(** ** The extracted company *)

Section CompanyFacts.

Variable utc_date : json -> date_outcome.

Lemma extract_company_inv h c :
  extract_company utc_date h = Some c ->
  exists human,
    launched_human utc_date (hit_get h "launched_at") = Some human /\
    dom c = list_to_set company_keys /\
    c !! "id"%string = Some (py_or (hit_get h "objectID") (hit_get h "id")) /\
    c !! "slug"%string = Some (hit_get_default h "slug" (JStr "")) /\
    c !! "url"%string
      = Some (JStr (if truthy (hit_get_default h "slug" (JStr ""))
                    then YC_BASE_URL +:+ "/" +:+ py_str (hit_get_default h "slug" (JStr ""))
                    else "")) /\
    c !! "launched_at"%string = Some (hit_get h "launched_at") /\
    c !! "launched_at_human"%string = Some (JStr human).
Proof.
  unfold extract_company.
  destruct (launched_human utc_date (hit_get h "launched_at")) as [human|];
    [|discriminate].
  intros [= <-]. exists human. split; [done|].
  split; [unfold company_dict; rewrite dom_list_to_map_L; reflexivity|].
  repeat split; reflexivity.
Qed.

(** X19. [extract_company] raises only out of the date conversion: it
    returns whenever [launched_at] is missing, null, zero or otherwise false
    (the date text is then empty) and whenever the conversion gives a text
    or an error that is caught (the date text is then that text, resp.
    empty); it raises when the conversion raises anything else.  When it
    returns, the dict has the same 23 keys whatever the hit holds. *)
Theorem X19_extract_company_shape h :
  let launched_at := hit_get h "launched_at" in
  (truthy launched_at = false ->
     exists c, extract_company utc_date h = Some c /\
       c !! "launched_at_human"%string = Some (JStr "")) /\
  (truthy launched_at = true ->
     match utc_date launched_at with
     | DateText s => exists c, extract_company utc_date h = Some c /\
                       c !! "launched_at_human"%string = Some (JStr s)
     | DateRejected => exists c, extract_company utc_date h = Some c /\
                       c !! "launched_at_human"%string = Some (JStr "")
     | DateCrash => extract_company utc_date h = None
     end) /\
  (forall c, extract_company utc_date h = Some c ->
     dom c = list_to_set company_keys /\ size c = 23%nat).
Proof.
  intros launched_at. split; [|split].
  - intros Hf. unfold extract_company, launched_human. fold launched_at.
    rewrite Hf. simpl. eexists. split; reflexivity.
  - intros Ht. unfold extract_company, launched_human. fold launched_at.
    rewrite Ht. destruct (utc_date launched_at); simpl;
      [eexists; split; reflexivity | eexists; split; reflexivity | done].
  - intros c Hc. destruct (extract_company_inv h c Hc) as (human & _ & Hdom & _).
    split; [done|].
    rewrite <- size_dom, Hdom. reflexivity.
Qed.

(** X20. The id of the payload and the id used for deduplication come from
    the same value of the hit: when the payload id is a true value, [hit_id]
    is its text; when it is not (no [objectID] and no [id], or only empty,
    null or zero ones), [hit_id] is the empty string. *)
Theorem X20_payload_id_agrees_with_hit_id h c :
  extract_company utc_date h = Some c ->
  exists v, c !! "id"%string = Some v /\
    (truthy v = true -> hit_id h = py_str v) /\
    (truthy v = false -> hit_id h = ""%string).
Proof.
  intros Hc. destruct (extract_company_inv h c Hc) as (_ & _ & _ & Hid & _).
  eexists. split; [exact Hid|]. unfold hit_id.
  split; intros Hv; unfold py_or at 1; by rewrite Hv.
Qed.

(** X21. The URL of the payload is built from the slug alone: it is empty
    when the hit has no slug or an empty one, and the directory URL, a slash
    and the slug when the slug is a non-empty string. *)
Theorem X21_payload_url_follows_slug h c :
  extract_company utc_date h = Some c ->
  (h !! "slug"%string = None \/ h !! "slug"%string = Some (JStr "") ->
     c !! "url"%string = Some (JStr "")) /\
  (forall s, h !! "slug"%string = Some (JStr s) -> s <> ""%string ->
     c !! "url"%string = Some (JStr (YC_BASE_URL +:+ "/" +:+ s)) /\
     c !! "slug"%string = Some (JStr s)).
Proof.
  intros Hc.
  destruct (extract_company_inv h c Hc) as (_ & _ & _ & _ & Hslug & Hurl & _).
  rewrite Hurl, Hslug. unfold hit_get_default. split.
  - by intros [-> | ->].
  - intros s -> Hs. simpl.
    destruct (String.eqb_spec s ""); [done|]. done.
Qed.

End CompanyFacts.

(** A conversion that gives one date for numbers and crashes on the rest. *)
Lemma X20_witness :
  let utc_date := fun v => match v with
                           | JInt _ => DateText "2024-01-15"
                           | _ => DateCrash
                           end in
  let h : hit := {[ "objectID"%string := JInt 42;
                    "launched_at"%string := JInt 1705276800 ]} in
  exists c, extract_company utc_date h = Some c /\
    c !! "id"%string = Some (JInt 42) /\ hit_id h = "42"%string.
Proof.
  intros utc_date h.
  destruct (extract_company utc_date h) as [c|] eqn:Hc; [|vm_compute in Hc; discriminate].
  exists c. split; [done|].
  destruct (X20_payload_id_agrees_with_hit_id utc_date h c Hc) as (v & Hv & _).
  split; [|vm_compute; reflexivity].
  vm_compute in Hc. injection Hc as <-. vm_compute. reflexivity.
Defined.

Lemma X21_witness :
  let utc_date := fun _ : json => DateRejected in
  let h : hit := {[ "slug"%string := JStr "acme" ]} in
  exists c, extract_company utc_date h = Some c /\
    c !! "url"%string = Some (JStr "https://www.ycombinator.com/companies/acme").
Proof.
  intros utc_date h.
  destruct (extract_company utc_date h) as [c|] eqn:Hc; [|vm_compute in Hc; discriminate].
  exists c. split; [done|].
  destruct (X21_payload_url_follows_slug utc_date h c Hc) as (_ & Hurl).
  destruct (Hurl "acme"%string) as [Hu _]; [reflexivity | discriminate |].
  rewrite Hu. reflexivity.
Defined.

(** ** The first run *)

(** X22. A first run (no state file, no [--seed]) notifies nothing: once
    past the retry of the pending batch, when the full fetch and the count
    query succeed, the run ends normally, sends nothing to the sink, leaves
    the pending file as the retry left it, and the state file holds the
    distinct non-empty ids that were fetched. *)
Theorem X22_first_run_notifies_nothing env cfg w w1 all_hits w2 total w3 :
  seed_flag cfg = false ->
  state_file w = Missing ->
  retry_pending env cfg w = (Ok tt, w1) ->
  fetch_all_companies env w1 = (Ok all_hits, w2) ->
  fetch_count env w2 = (Ok total, w3) ->
  exists w' s,
    main env cfg w = (Ok tt, w') /\
    pending_file w' = pending_file w1 /\
    (exists tr, trace w' = trace w1 ++ tr /\ Forall (fun e => ~ is_webhook e) tr) /\
    state_file w' = Holds s /\
    stored_known s = seeded_ids all_hits.
Proof.
  intros Hseed Hst Hretry Hall Hc.
  pose proof (retry_pending_preserves env cfg w) as (Hs1 & _).
  rewrite Hretry in Hs1. simpl in Hs1.
  assert (Hst1 : state_file w1 = Missing) by (by rewrite Hs1).
  pose proof (detect_new_first_run env (full_fetch_flag cfg) w1 all_hits w2 total w3
                Hst1 Hall Hc) as Hd. cbv zeta in Hd.
  pose proof (detect_new_preserves env (full_fetch_flag cfg) w1) as (_ & Hp & tr & Htr & Hall').
  rewrite Hd in Hp, Htr. simpl in Hp, Htr.
  set (w4 := {| state_file := _; pending_file := pending_file w3; trace := _ |}) in *.
  set (known := seeded_ids all_hits) in *.
  set (s := new_state (env_now env (trace w4)) (elements known)
              (Z.of_nat (size known))).
  exists {| state_file := Holds s; pending_file := pending_file w4;
            trace := trace w4 ++ [EvOpenState; EvDumpState s] |}, s.
  split.
  { unfold main. erewrite bind_ok by exact Hretry.
    unfold detect_and_deliver. rewrite Hseed.
    unfold bind at 1, try_except_request. rewrite Hd.
    unfold bind. by rewrite save_state_run. }
  split; [simpl; by apply Hp|].
  split.
  { exists (tr ++ [EvOpenState; EvDumpState s]). simpl. split.
    - unfold w4 in Htr |- *. simpl in Htr |- *. by rewrite Htr, <- app_assoc.
    - apply Forall_app. split; [done|].
      repeat constructor; intros (?&?&?); discriminate. }
  split; [done|]. apply stored_known_new_state.
Qed.

Lemma X22_witness :
  let env := static_env 2 {[ "W24"%string := 1 ]} []
               [hit_of "a"; hit_of "b"] accept_all in
  let w := world_of Missing Missing in
  (main env delivering w).1 = Ok tt /\
  Forall (fun e => ~ is_webhook e) (trace (main env delivering w).2).
Proof.
  intros env w.
  destruct (X22_first_run_notifies_nothing env delivering w w
              [hit_of "a"; hit_of "b"] (fetch_all_companies env w).2 2
              (fetch_count env (fetch_all_companies env w).2).2)
    as (w' & s & Hmain & _ & (tr & Htr & Hall) & _);
    [reflexivity | reflexivity | reflexivity | vm_compute; reflexivity
    | vm_compute; reflexivity |].
  rewrite Hmain. simpl. split; [reflexivity|].
  rewrite Htr. exact Hall.
Defined.
